(** * blender_worker.py: the environment state machine and its line-delimited
      JSON server, embedded and checked against the specification.

    The development follows the source file from top to bottom:
    binary64 arithmetic (Python's [float]), the values [json.loads] returns,
    the Blender Python runtime as an interface, [SimpleBlenderEnv]
    ([reset], [_get_obs], [_compute_reward], [step]) and [TCPServer]
    ([handle_client], [start]). *)

From Stdlib Require Import ZArith List String Bool Lia.
From Stdlib Require Import Floats.SpecFloat.
From Equations Require Import Equations.
Import ListNotations.
Local Open Scope string_scope.
Local Open Scope list_scope.
Local Open Scope Z_scope.

(** ** Python floats: IEEE-754 binary64 on the standard library's [spec_float] *)
Module F64.

Definition prec : Z := 53.
Definition emax : Z := 1024.

Definition float := spec_float.

Definition zero : float := S754_zero false.
Definition neg_zero : float := S754_zero true.

Definition add : float -> float -> float := SFadd prec emax.
Definition sub : float -> float -> float := SFsub prec emax.
Definition mul : float -> float -> float := SFmul prec emax.
Definition div : float -> float -> float := SFdiv prec emax.
Definition opp : float -> float := SFopp.
Definition eqb : float -> float -> bool := SFeqb.
Definition ltb : float -> float -> bool := SFltb.
Definition leb : float -> float -> bool := SFleb.

(** [float(n)] for a Python int, rounded to nearest even.  CPython raises
    OverflowError from 2^1024 - 2^970 on, where this rounding gives an
    infinity; the counts converted in this program are lengths of sequences
    held in memory and stay far below. *)
Definition of_int (n : Z) : float := binary_normalize prec emax n 0 false.

(** A decimal literal [n/d] of the source text, correctly rounded. *)
Definition lit (n d : Z) : float := div (of_int n) (of_int d).

Definition c_0_001  : float := Eval vm_compute in lit 1 1000.
Definition c_0_01   : float := Eval vm_compute in lit 1 100.
Definition c_0_85   : float := Eval vm_compute in lit 85 100.
Definition c_0_0005 : float := Eval vm_compute in lit 5 10000.
Definition c_66_0   : float := Eval vm_compute in lit 66 1.
Definition c_0_02   : float := Eval vm_compute in lit 2 100.
Definition c_1_3    : float := Eval vm_compute in lit 13 10.
Definition c_1_0    : float := Eval vm_compute in lit 1 1.
Definition c_2_9    : float := Eval vm_compute in lit 29 10.
Definition c_1_04   : float := Eval vm_compute in lit 104 100.

(** [int(x)] on a finite float: the integer part, rounding toward zero. *)
Definition trunc (f : float) : option Z :=
  match f with
  | S754_zero _ => Some 0
  | S754_finite s m e =>
      let a := match e with
               | Zneg p => Z.quot (Zpos m) (2 ^ Zpos p)
               | _ => Zpos m * 2 ^ e
               end in
      Some (if s then - a else a)
  | S754_infinity _ | S754_nan => None
  end.

End F64.

Abbreviation float := F64.float.

(** ** Values: what [json.loads] returns and [json.dumps] takes *)
#[warnings="-register-all"]
Inductive json : Type :=
| JNull
| JBool (b : bool)
| JInt (n : Z)
| JFloat (f : float)
| JStr (s : string)
| JList (l : list json)
| JDict (d : list (string * json)).

(** A dict is kept as its items in insertion order; [json.loads] lets the
    last of several equal keys win. *)
Fixpoint dict_get (d : list (string * json)) (k : string) : option json :=
  match d with
  | [] => None
  | (k', v) :: d' =>
      match dict_get d' k with
      | Some v' => Some v'
      | None => if String.eqb k' k then Some v else None
      end
  end.

(** Python's [v == s] for a str literal [s]. *)
Definition is_str (v : json) (s : string) : bool :=
  match v with
  | JStr s' => String.eqb s' s
  | _ => false
  end.

(** Python's truth value of [v] ([if path:]). *)
Definition truthy (v : json) : bool :=
  match v with
  | JNull => false
  | JBool b => b
  | JInt n => negb (Z.eqb n 0)
  | JFloat f => negb (F64.eqb f F64.zero)
  | JStr s => negb (String.eqb s "")
  | JList l => match l with [] => false | _ => true end
  | JDict d => match d with [] => false | _ => true end
  end.

(** ** Exceptions *)
Inductive exn : Type := Exn (cls : string) (msg : string).

Definition TypeError := Exn "TypeError".
Definition ValueError := Exn "ValueError".
Definition OverflowError := Exn "OverflowError".
Definition AttributeError := Exn "AttributeError".

Definition str_exn (e : exn) : string := let 'Exn _ msg := e in msg.

Inductive result (A : Type) : Type :=
| Returned (a : A)
| Raised (e : exn).
Arguments Returned {A} a.
Arguments Raised {A} e.

(** ** The runtime the worker runs in

    [bpy] (the scene engine), the files it imports from and exports to, and
    the str branch of the builtin [int].  The operations the source wraps in
    [try] somewhere can raise, and leave the scene they reached behind. *)
Class Runtime : Type := {
  scene : Type;
  files : Type;
  object : Type;
  (* bpy.ops.wm.read_factory_settings(use_empty=True) *)
  read_factory_settings : scene -> scene;
  (* os.path.exists(path) *)
  path_exists : string -> files -> bool;
  (* bpy.ops.wm.usd_import(filepath=path) *)
  usd_import : string -> files -> scene -> scene * option exn;
  (* bpy.data.objects, o.type, len(o.data.polygons), o.bound_box[0],
     o.dimensions, the truth value of o.data.uv_layers *)
  data_objects : scene -> list object;
  obj_type : scene -> object -> string;
  polygons_len : scene -> object -> nat;
  bound_box0 : scene -> object -> float * float * float;
  dimensions : scene -> object -> float * float * float;
  uv_layers : scene -> object -> bool;
  (* bpy.context.view_layer.objects.active = o *)
  set_active : object -> scene -> scene * option exn;
  (* o.modifiers.new("dec", "DECIMATE"); mod.ratio = r; modifier_apply *)
  decimate : object -> float -> scene -> scene * option exn;
  (* mode_set EDIT; select_all; remove_doubles(threshold); mode_set OBJECT *)
  remove_doubles : float -> scene -> scene * option exn;
  (* mode_set EDIT; smart_project(angle_limit, island_margin); mode_set OBJECT *)
  smart_project : float -> float -> scene -> scene * option exn;
  (* o.location.x = x *)
  set_location_x : object -> float -> scene -> scene * option exn;
  (* bpy.ops.wm.usd_export(filepath=path, export_animation=True) *)
  usd_export : json -> scene -> files -> files * option exn;
  (* int(s) for a str s: None when it raises ValueError *)
  int_of_str : string -> option Z
}.

(** What the worker does that can be observed from outside, in order. *)
Inductive event : Type :=
| Listening
| Accepted
| Sent (reply : json)
| SocketClosed
| PrintConnected
| PrintInvalidJson (raw : string)
| PrintDisconnected
| PrintImportError (e : exn)
| PrintTraceback (e : exn).

Section Worker.

Context {R : Runtime}.

(** The process state: the fields of the one [SimpleBlenderEnv], the
    global [bpy] scene, the files, and the trace of events so far. *)
Record world : Type := {
  usd_path : option string;
  step_count : Z;
  max_steps : Z;
  bpy_scene : scene;
  disk : files;
  trace : list event
}.

Definition set_step_count (n : Z) (w : world) : world :=
  {| usd_path := usd_path w; step_count := n; max_steps := max_steps w;
     bpy_scene := bpy_scene w; disk := disk w; trace := trace w |}.

Definition set_scene (s : scene) (w : world) : world :=
  {| usd_path := usd_path w; step_count := step_count w;
     max_steps := max_steps w; bpy_scene := s; disk := disk w;
     trace := trace w |}.

Definition set_disk (d : files) (w : world) : world :=
  {| usd_path := usd_path w; step_count := step_count w;
     max_steps := max_steps w; bpy_scene := bpy_scene w; disk := d;
     trace := trace w |}.

Definition emit (e : event) (w : world) : world :=
  {| usd_path := usd_path w; step_count := step_count w;
     max_steps := max_steps w; bpy_scene := bpy_scene w; disk := disk w;
     trace := trace w ++ [e] |}.

(** *** State and exceptions: a raise keeps the state reached so far *)
Definition M (A : Type) : Type := world -> world * result A.

Definition ret {A} (a : A) : M A := fun w => (w, Returned a).
Definition raise {A} (e : exn) : M A := fun w => (w, Raised e).
Definition bind {A B} (c : M A) (k : A -> M B) : M B :=
  fun w => match c w with
           | (w', Returned a) => k a w'
           | (w', Raised e) => (w', Raised e)
           end.
Definition get : M world := fun w => (w, Returned w).
Definition modify (f : world -> world) : M unit :=
  fun w => (f w, Returned tt).
(* try: c  except Exception as e: h e *)
Definition try_except {A} (c : M A) (h : exn -> M A) : M A :=
  fun w => match c w with
           | (w', Returned a) => (w', Returned a)
           | (w', Raised e) => h e w'
           end.
(* try: c  finally: f *)
Definition try_finally {A} (c : M A) (f : M unit) : M A :=
  fun w => match c w with
           | (w', r) => match f w' with
                        | (w'', Returned _) => (w'', r)
                        | (w'', Raised e) => (w'', Raised e)
                        end
           end.

End Worker.

Notation "x <- c ;; k" := (bind c (fun x => k))
  (at level 61, c at next level, right associativity).
Notation "' p <- c ;; k" := (bind c (fun x => let 'p := x in k))
  (at level 61, p pattern, c at next level, right associativity).
Notation "c ;; k" := (bind c (fun _ => k))
  (at level 61, right associativity).

(** ** Observations *)
Record observation : Type := {
  n_objs : Z;
  n_tris : Z;
  bbox0 : list float;
  dims : list float
}.

Definition xyz (v : float * float * float) : list float :=
  let '(x, y, z) := v in [x; y; z].

(* sum(l), from the left, starting at 0 *)
Definition py_sum (l : list Z) : Z := fold_left Z.add l 0.

(* while len(dims) < n: dims.append(0.0) *)
Equations pad_to (n : nat) (dims : list float) : list float
  by wf (n - List.length dims)%nat lt :=
  pad_to n dims with lt_dec (List.length dims) n := {
    | left _ => pad_to n (dims ++ [F64.zero]);
    | right _ => dims }.
Next Obligation. rewrite length_app; simpl; lia. Qed.

(* json.dumps of an observation dict, as a value *)
Definition obs_json (o : observation) : json :=
  JDict [("n_objs", JInt (n_objs o)); ("n_tris", JInt (n_tris o));
         ("bbox0", JList (map JFloat (bbox0 o)));
         ("dims", JList (map JFloat (dims o)))].

(** ** [SimpleBlenderEnv] *)
Section Env.

Context {R : Runtime}.

Definition emit_ (e : event) : M unit := modify (emit e).

(* a bpy call on the global scene *)
Definition bpy_op (op : scene -> scene * option exn) : M unit :=
  fun w => let (s', r) := op (bpy_scene w) in
           (set_scene s' w,
            match r with None => Returned tt | Some e => Raised e end).

(* try: c  except Exception: pass *)
Definition try_pass (c : M unit) : M unit :=
  try_except c (fun _ => ret tt).

(* for x in l: body x *)
Fixpoint for_each {A} (l : list A) (body : A -> M unit) : M unit :=
  match l with
  | [] => ret tt
  | x :: l' => body x ;; for_each l' body
  end.

(* [o for o in bpy.data.objects if o.type == 'MESH'] *)
Definition mesh_objects (s : scene) : list object :=
  filter (fun o => String.eqb (obj_type s o) "MESH") (data_objects s).

(* for o in objs: dims += [o.dimensions.x, o.dimensions.y, o.dimensions.z] *)
Fixpoint collect_dims (s : scene) (objs : list object) (dims : list float)
  : list float :=
  match objs with
  | [] => dims
  | o :: objs' => collect_dims s objs' (dims ++ xyz (dimensions s o))
  end.

Definition get_obs (s : scene) : observation :=
  let objs := mesh_objects s in
  let tris := match objs with
              | [] => 0
              | _ => py_sum (map (fun o => Z.of_nat (polygons_len s o)) objs)
              end in
  let n_objs := Z.of_nat (List.length objs) in
  let bbox0 := match objs with
               | [] => [F64.zero; F64.zero; F64.zero]
               | o :: _ => xyz (bound_box0 s o)
               end in
  let dims := collect_dims s (firstn 5 objs) [] in
  let dims := pad_to 15 dims in
  let dims := firstn 15 dims in
  {| n_objs := n_objs; n_tris := tris; bbox0 := bbox0; dims := dims |}.

(* the extents of the first five mesh objects, in enumeration order *)
Definition extents (s : scene) : list float :=
  flat_map (fun o => xyz (dimensions s o)) (firstn 5 (mesh_objects s)).

Definition _get_obs : M observation :=
  w <- get ;; ret (get_obs (bpy_scene w)).

Definition _compute_reward (obs : observation) : float :=
  let r := F64.mul (F64.opp F64.c_0_001) (F64.of_int (n_tris obs)) in
  let r := F64.add r (F64.mul (F64.opp F64.c_0_01)
                        (F64.of_int (Z.max 0 (n_objs obs - 6)))) in
  r.

Definition reset : M observation :=
  modify (fun w => set_scene (read_factory_settings (bpy_scene w)) w) ;;
  w <- get ;;
  match usd_path w with
  | Some p =>
      if negb (String.eqb p "") && path_exists p (disk w) then
        try_except (bpy_op (usd_import p (disk w)))
                   (fun e => emit_ (PrintImportError e))
      else ret tt
  | None => ret tt
  end ;;
  modify (set_step_count 0) ;;
  obs <- _get_obs ;;
  ret obs.

(* the state [reset] reaches before it clears [step_count] *)
Definition baseline (w : world) : world :=
  let w1 := set_scene (read_factory_settings (bpy_scene w)) w in
  match usd_path w with
  | Some p =>
      if negb (String.eqb p "") && path_exists p (disk w) then
        match usd_import p (disk w) (bpy_scene w1) with
        | (s', None) => set_scene s' w1
        | (s', Some e) => emit (PrintImportError e) (set_scene s' w1)
        end
      else w1
  | None => w1
  end.

(* action 3: x = 0.0; for o in objs: try: ... except Exception: pass *)
Fixpoint layout_x (objs : list object) (x : float) : M unit :=
  match objs with
  | [] => ret tt
  | o :: objs' =>
      x' <- try_except
              (bpy_op (set_location_x o x) ;;
               w <- get ;;
               let '(dx, _, _) := dimensions (bpy_scene w) o in
               ret (F64.add x (F64.mul (if F64.ltb F64.zero dx then dx
                                        else F64.c_1_0) F64.c_1_3)))
              (fun _ => ret x) ;;
      layout_x objs' x'
  end.

Definition dispatch (action : Z) (objs : list object) : M unit :=
  if action =? 0 then
    for_each objs (fun o =>
      bpy_op (set_active o) ;;
      try_pass (bpy_op (decimate o F64.c_0_85)))
  else if action =? 1 then
    for_each objs (fun o =>
      try_pass (bpy_op (set_active o) ;;
                bpy_op (remove_doubles F64.c_0_0005)))
  else if action =? 2 then
    for_each objs (fun o =>
      try_pass (bpy_op (set_active o) ;;
                w <- get ;;
                if negb (uv_layers (bpy_scene w) o) then
                  bpy_op (smart_project F64.c_66_0 F64.c_0_02)
                else ret tt))
  else if action =? 3 then
    layout_x objs F64.zero
  else
    ret tt.

Definition step (action : Z) : M (observation * float * bool * json) :=
  w <- get ;;
  let objs := mesh_objects (bpy_scene w) in
  dispatch action objs ;;
  modify (fun w => set_step_count (step_count w + 1) w) ;;
  obs <- _get_obs ;;
  let reward := _compute_reward obs in
  w <- get ;;
  let done := step_count w >=? max_steps w in
  let info := JDict [] in
  ret (obs, reward, done, info).

End Env.

(** ** [TCPServer] *)

(** A line read from the connection, by what
    [json.loads(line.decode('utf-8').strip())] does with it: raise, or return
    [data].  The end of the list is the empty read of a closed transport. *)
Inductive line : Type :=
| Invalid (raw : string)
| Valid (data : json).

(* the two ways an iteration of [while True] ends *)
Inductive ctl : Type := Continue | Break.

Section Server.

Context {R : Runtime}.

Definition lift {A} (r : result A) : M A := fun w => (w, r).

(* data.get(key, default); only a dict has [get] *)
Definition py_get (data : json) (key : string) (default : json)
  : result json :=
  match data with
  | JDict d => Returned (match dict_get d key with
                         | Some v => v
                         | None => default
                         end)
  | _ => Raised (AttributeError "")
  end.

(* the builtin int(v) *)
Definition py_int (v : json) : result Z :=
  match v with
  | JInt n => Returned n
  | JBool b => Returned (if b then 1 else 0)
  | JFloat f => match F64.trunc f with
                | Some n => Returned n
                | None => match f with
                          | S754_nan => Raised (ValueError "")
                          | _ => Raised (OverflowError "")
                          end
                end
  | JStr s => match int_of_str s with
              | Some n => Returned n
              | None => Raised (ValueError "")
              end
  | JNull | JList _ | JDict _ => Raised (TypeError "")
  end.

(* f.write((json.dumps(v)+"\n").encode('utf-8')); f.flush() *)
Definition send (v : json) : M unit := emit_ (Sent v).

Definition export (path : json) : M unit :=
  fun w => let (d', r) := usd_export path (bpy_scene w) (disk w) in
           (set_disk d' w,
            match r with None => Returned tt | Some e => Raised e end).

(** One iteration of the loop of [handle_client], from [data.get("cmd")]. *)
Definition handle_line (data : json) : M ctl :=
  cmd <- lift (py_get data "cmd" JNull) ;;
  if is_str cmd "reset" then
    obs <- reset ;;
    send (JDict [("obs", obs_json obs)]) ;;
    ret Continue
  else if is_str cmd "step" then
    a <- lift (py_get data "action" (JInt 0)) ;;
    action <- lift (py_int a) ;;
    '(obs, reward, done, info) <- step action ;;
    send (JDict [("obs", obs_json obs); ("reward", JFloat reward);
                 ("done", JBool done); ("info", info)]) ;;
    ret Continue
  else if is_str cmd "ping" then
    send (JDict [("pong", JBool true)]) ;;
    ret Continue
  else if is_str cmd "save" then
    path <- lift (py_get data "path" JNull) ;;
    try_except
      (if truthy path then
         export path ;;
         send (JDict [("saved", JBool true); ("path", path)])
       else
         send (JDict [("saved", JBool false); ("error", JStr "no path")]))
      (fun e =>
         send (JDict [("saved", JBool false); ("error", JStr (str_exn e))])) ;;
    ret Continue
  else if is_str cmd "close" then
    send (JDict [("closed", JBool true)]) ;;
    ret Break
  else
    send (JDict [("error", JStr "unknown_cmd")]) ;;
    ret Continue.

Fixpoint handle_client (lines : list line) : M unit :=
  match lines with
  | [] => emit_ PrintDisconnected
  | Invalid raw :: _ =>
      emit_ (PrintInvalidJson raw) ;;
      emit_ PrintDisconnected
  | Valid data :: lines' =>
      c <- handle_line data ;;
      match c with
      | Continue => handle_client lines'
      | Break => emit_ PrintDisconnected
      end
  end.

(** The accept loop of [start], over the connections made to the worker,
    each given by the lines its client sends.  [self.running] is never
    cleared, so the loop ends only with the list. *)
Fixpoint accept_loop (conns : list (list line)) : M unit :=
  match conns with
  | [] => ret tt
  | conn :: conns' =>
      emit_ Accepted ;;
      emit_ PrintConnected ;;
      try_finally
        (try_except (handle_client conn)
                    (fun e => emit_ (PrintTraceback e)))
        (emit_ SocketClosed) ;;
      accept_loop conns'
  end.

Definition start (conns : list (list line)) : M unit :=
  emit_ Listening ;;
  accept_loop conns.

(* SimpleBlenderEnv(usd_path=...) in a fresh process *)
Definition init (usd : option string) (s : scene) (d : files) : world :=
  {| usd_path := usd; step_count := 0; max_steps := 50;
     bpy_scene := s; disk := d; trace := [] |}.

End Server.

(** ** A small runtime to run the worker on

    Scenes are lists of objects, named by their position; a file holds the
    scene exported to it.  Objects outside the view layer refuse to become
    active, and only str paths can be exported to. *)
Module Toy.

Record tobj : Type := {
  t_type : string;
  t_polys : nat;
  t_corner : float * float * float;
  t_dims : float * float * float;
  t_uv : bool;
  t_in_layer : bool
}.

Definition tscene : Type := list tobj.
Definition tfiles : Type := list (string * tscene).

Definition no_obj : tobj :=
  {| t_type := ""; t_polys := 0;
     t_corner := (F64.zero, F64.zero, F64.zero);
     t_dims := (F64.zero, F64.zero, F64.zero);
     t_uv := false; t_in_layer := false |}.

Definition at_ (s : tscene) (o : nat) : tobj := nth o s no_obj.

Fixpoint update (s : tscene) (o : nat) (f : tobj -> tobj) : tscene :=
  match s, o with
  | [], _ => []
  | x :: s', O => f x :: s'
  | x :: s', S o' => x :: update s' o' f
  end.

Fixpoint lookup (d : tfiles) (p : string) : option tscene :=
  match d with
  | [] => None
  | (p', s) :: d' => if String.eqb p' p then Some s else lookup d' p
  end.

Definition digit (c : Ascii.ascii) : option Z :=
  let n := Z.of_nat (Ascii.nat_of_ascii c) in
  if (48 <=? n) && (n <=? 57) then Some (n - 48) else None.

Fixpoint digits (s : string) (acc : Z) : option Z :=
  match s with
  | EmptyString => Some acc
  | String c s' => match digit c with
                   | Some d => digits s' (10 * acc + d)
                   | None => None
                   end
  end.

(* plain decimal numerals only *)
Definition parse_int (s : string) : option Z :=
  match s with
  | EmptyString => None
  | _ => digits s 0
  end.

Definition runtime : Runtime := {|
  scene := tscene;
  files := tfiles;
  object := nat;
  read_factory_settings := fun _ => [];
  path_exists := fun p d => match lookup d p with
                            | Some _ => true
                            | None => false
                            end;
  usd_import := fun p d s =>
    match lookup d p with
    | Some s' => (s ++ s', None)
    | None => (s, Some (Exn "RuntimeError" "cannot open file"))
    end;
  data_objects := fun s => seq 0 (List.length s);
  obj_type := fun s o => t_type (at_ s o);
  polygons_len := fun s o => t_polys (at_ s o);
  bound_box0 := fun s o => t_corner (at_ s o);
  dimensions := fun s o => t_dims (at_ s o);
  uv_layers := fun s o => t_uv (at_ s o);
  set_active := fun o s =>
    if t_in_layer (at_ s o) then (s, None)
    else (s, Some (Exn "RuntimeError" "object not in view layer"));
  decimate := fun o _ s =>
    (update s o (fun x =>
       {| t_type := t_type x; t_polys := (t_polys x * 85 / 100)%nat;
          t_corner := t_corner x; t_dims := t_dims x; t_uv := t_uv x;
          t_in_layer := t_in_layer x |}), None);
  remove_doubles := fun _ s => (s, None);
  smart_project := fun _ _ s => (s, None);
  set_location_x := fun o x s =>
    (update s o (fun y =>
       {| t_type := t_type y; t_polys := t_polys y;
          t_corner := let '(_, b, c) := t_corner y in (x, b, c);
          t_dims := t_dims y; t_uv := t_uv y;
          t_in_layer := t_in_layer y |}), None);
  usd_export := fun path s d =>
    match path with
    | JStr p => ((p, s) :: d, None)
    | _ => (d, Some (TypeError "filepath expected a string type"))
    end;
  int_of_str := parse_int
|}.

Definition cube (polys : nat) (in_layer : bool) : tobj :=
  {| t_type := "MESH"; t_polys := polys;
     t_corner := (F64.opp F64.c_1_0, F64.opp F64.c_1_0, F64.opp F64.c_1_0);
     t_dims := (F64.of_int 2, F64.of_int 2, F64.of_int 2);
     t_uv := false; t_in_layer := in_layer |}.

Definition camera : tobj :=
  {| t_type := "CAMERA"; t_polys := 0;
     t_corner := (F64.zero, F64.zero, F64.zero);
     t_dims := (F64.zero, F64.zero, F64.zero);
     t_uv := false; t_in_layer := true |}.

(* a worker started without --usd, on some scene left in Blender *)
Definition w0 (s : tscene) : @world runtime :=
  @init runtime None s [].

Definition scene1 : tscene := [camera; cube 12 true; cube 6 false].

(* requests, as decoded *)
Definition ping : json := JDict [("cmd", JStr "ping")].
Definition bad_step : json :=
  JDict [("cmd", JStr "step"); ("action", JStr "abc")].

(* an observation with the given counts *)
Definition counts (tris objs : Z) : observation :=
  {| n_objs := objs; n_tris := tris;
     bbox0 := [F64.zero; F64.zero; F64.zero]; dims := repeat F64.zero 15 |}.

End Toy.

(** The reply shapes of the protocol. *)
Definition is_float (v : json) : bool :=
  match v with JFloat _ => true | _ => false end.

Definition obs_shape (v : json) : bool :=
  match v with
  | JDict [("n_objs", JInt _); ("n_tris", JInt _);
           ("bbox0", JList b); ("dims", JList d)] =>
      forallb is_float b && (List.length b =? 3)%nat
      && forallb is_float d && (List.length d =? 15)%nat
  | _ => false
  end.

Definition success_payload (v : json) : bool :=
  match v with
  | JDict [("obs", o)] => obs_shape o
  | JDict [("obs", o); ("reward", JFloat _); ("done", JBool _);
           ("info", JDict [])] => obs_shape o
  | JDict [("pong", JBool true)] => true
  | JDict [("saved", JBool true); ("path", _)] => true
  | JDict [("closed", JBool true)] => true
  | _ => false
  end.

Definition error_payload (v : json) : bool :=
  match v with
  | JDict [("saved", JBool false); ("error", JStr _)] => true
  | JDict [("error", JStr _)] => true
  | _ => false
  end.

Definition well_formed_reply (v : json) : bool :=
  success_payload v || error_payload v.

(** ** Scenarios the specification talks about *)
Section Scenarios.

Context {R : Runtime}.

(* calls of env.step, one after the other; a raise ends the run *)
Fixpoint run_steps (actions : list Z)
  : M (list (observation * float * bool * json)) :=
  match actions with
  | [] => ret []
  | a :: actions' =>
      r <- step a ;;
      rs <- run_steps actions' ;;
      ret (r :: rs)
  end.

(* the same calls by a caller that goes on after a raise *)
Fixpoint steps_between (actions : list Z) (w : world) : world :=
  match actions with
  | [] => w
  | a :: actions' => steps_between actions' (fst (step a w))
  end.

(* requests of one session, each answered, none of them ending it *)
Inductive served : list json -> world -> world -> Prop :=
| served_nil : forall w, served [] w w
| served_cons : forall data rest w w1 w2,
    handle_line data w = (w1, Returned Continue) ->
    served rest w1 w2 ->
    served (data :: rest) w w2.

Definition emits (es : list event) (w : world) : world :=
  fold_left (fun w e => emit e w) es w.

(* the replies written so far *)
Fixpoint replies (t : list event) : list json :=
  match t with
  | [] => []
  | Sent v :: t' => v :: replies t'
  | _ :: t' => replies t'
  end.

(* data.get(key, default) on a dict *)
Definition field (d : list (string * json)) (key : string) (default : json)
  : json :=
  match dict_get d key with Some v => v | None => default end.

(** The session a connection gets, from [accept] to the closed socket. *)
Definition session (conn : list line) (w : world) : world :=
  let w0 := emits [Accepted; PrintConnected] w in
  match handle_client conn w0 with
  | (w1, Returned _) => emit SocketClosed w1
  | (w1, Raised e) => emits [PrintTraceback e; SocketClosed] w1
  end.

(** Why an iteration can raise: the decoded line is not a dict, or it is
    a [step] whose action [int] rejects, or whose action is 0 (where
    making an object active is outside the [try]). *)
Definition raise_cause (data : json) (e : exn) : Prop :=
  (forall d, data <> JDict d)
  \/ exists d, data = JDict d
       /\ is_str (field d "cmd" JNull) "step" = true
       /\ (py_int (field d "action" (JInt 0)) = Raised e
           \/ py_int (field d "action" (JInt 0)) = Returned 0).

(* an iteration that wrote one reply, well formed, and returned *)
Definition replied (data : json) (w : world) : Prop :=
  exists w2 c reply log,
    handle_line data w = (w2, Returned c)
    /\ trace w2 = trace w ++ log ++ [Sent reply]
    /\ replies log = []
    /\ well_formed_reply reply = true.

(** A computation that touches nothing but the scene. *)
Definition scene_only {A} (c : M A) : Prop :=
  forall w, fst (c w) = set_scene (bpy_scene (fst (c w))) w.

Definition returns {A} (c : M A) : Prop :=
  forall w, exists a, snd (c w) = Returned a.

End Scenarios.

(** ** Rounding to 53 significant bits, on integers *)

(* M / 2^n rounded to the nearest integer, ties to even *)
Definition rne (M n : Z) : Z :=
  let q := M / 2 ^ n in
  match 2 * (M mod 2 ^ n) ?= 2 ^ n with
  | Lt => q
  | Eq => if Z.even q then q else q + 1
  | Gt => q + 1
  end.

(* M rounded to a multiple of 2^n that has at most 53 significant bits *)
Definition round53 (M : Z) : Z :=
  let n := Z.log2 M - 52 in
  if n <=? 0 then M else rne M n * 2 ^ n.

(* a mantissa with all its 53 bits *)
Definition full (m : positive) : Prop := Z.log2 (Zpos m) = 52.

(* the magnitude of a float, in units of 2^-k *)
Definition mag (k : Z) (f : float) : Z :=
  match f with
  | S754_finite _ m e => Zpos m * 2 ^ (e + k)
  | _ => 0
  end.

(* a zero, or a negative float with a full mantissa, its exponent in [lo, hi] *)
Definition nonpos (lo hi : Z) (f : float) : Prop :=
  match f with
  | S754_zero _ => True
  | S754_finite s m e => s = true /\ full m /\ lo <= e <= hi
  | _ => False
  end.

(* the magnitude of the reward for [t] triangles and [j] objects above six,
   in units of 2^-128 *)
Definition reward_mag (t j : Z) : Z :=
  let c1 := 0x10624dd2f1a9fc * 2 ^ 2 in      (* 0.001 * 2^64 *)
  let c2 := 0x147ae147ae147b * 2 ^ 5 in      (* 0.01 * 2^64 *)
  round53 (round53 (c1 * round53 (t * 2 ^ 64))
           + round53 (c2 * round53 (j * 2 ^ 64))).

(** The reward as the specification writes it, read as the Python
    expression [-0.001 * n_tris - 0.01 * max(0, n_objs - 6)]. *)
Definition reward_formula (n_tris n_objs : Z) : float :=
  F64.sub (F64.mul (F64.opp F64.c_0_001) (F64.of_int n_tris))
          (F64.mul F64.c_0_01 (F64.of_int (Z.max 0 (n_objs - 6)))).

(** ** Process start-up: [parse_args] and [main] *)

(* x in l *)
Definition py_in (x : string) (l : list string) : bool :=
  existsb (fun y => String.eqb y x) l.

(* l.index(x): the first position holding x; None stands for ValueError *)
Fixpoint py_index (x : string) (l : list string) : option nat :=
  match l with
  | [] => None
  | y :: l' => if String.eqb y x then Some 0%nat
               else option_map S (py_index x l')
  end.

(* sys.argv[sys.argv.index("--")+1:] if "--" in sys.argv else [] *)
Definition worker_argv (argv : list string) : result (list string) :=
  if py_in "--" argv then
    match py_index "--" argv with
    | Some i => Returned (skipn (i + 1) argv)
    | None => Raised (ValueError "")
    end
  else Returned [].

(* the namespace [parse_known_args] hands back *)
Record args : Type := { port : Z; host : string; usd : string }.

(** [main] once the arguments are parsed: the environment gets
    [args.usd if args.usd else None], the server gets the environment, and
    [start] runs over the connections made. *)
Definition main {R : Runtime} (a : args) (s : scene) (d : files)
           (conns : list (list line)) : world * result unit :=
  let env_usd := if String.eqb (usd a) "" then None else Some (usd a) in
  start conns (init env_usd s d).

(** ** Vocabulary for traces *)

(* what a connection handler may print or write *)
Definition session_event (e : event) : bool :=
  match e with
  | Listening | Accepted | SocketClosed => false
  | _ => true
  end.

(* the trace of [n] connections served one after the other: each is
   accepted, handled and closed before the next is accepted *)
Inductive served_trace : list event -> nat -> Prop :=
| served_trace_nil : served_trace [] 0
| served_trace_cons : forall log t n,
    forallb session_event log = true ->
    served_trace t n ->
    served_trace (Accepted :: log ++ SocketClosed :: t) (S n).

(* a line that asks for no reset, no step and no save *)
Definition idle_line (l : line) : bool :=
  match l with
  | Valid (JDict d) =>
      let cmd := field d "cmd" JNull in
      negb (is_str cmd "reset") && negb (is_str cmd "step")
      && negb (is_str cmd "save")
  | _ => true
  end.

(** * Observation construction *)
Section ObservationFacts.

Context {R : Runtime}.

Lemma pad_to_spec (n : nat) (l : list float) :
  pad_to n l = l ++ repeat F64.zero (n - List.length l).
Proof.
  funelim (pad_to n l).
  - rewrite H. rewrite <- app_assoc. f_equal.
    rewrite length_app. simpl List.length.
    replace (n - List.length dims0)%nat
      with (S (n - (List.length dims0 + 1)))%nat by lia.
    reflexivity.
  - replace (n - List.length dims0)%nat with 0%nat by lia.
    simpl. now rewrite app_nil_r.
Qed.

Lemma collect_dims_spec (s : scene) (objs : list object) (acc : list float) :
  collect_dims s objs acc
  = acc ++ flat_map (fun o => xyz (dimensions s o)) objs.
Proof.
  revert acc. induction objs as [|o objs IH]; intros acc; simpl.
  - now rewrite app_nil_r.
  - rewrite IH. now rewrite <- app_assoc.
Qed.

Lemma xyz_length (v : float * float * float) : List.length (xyz v) = 3%nat.
Proof. now destruct v as [[x y] z]. Qed.

Lemma flat_xyz_length (s : scene) (objs : list object) :
  List.length (flat_map (fun o => xyz (dimensions s o)) objs)
  = (3 * List.length objs)%nat.
Proof.
  induction objs as [|o objs IH]; simpl; [reflexivity|].
  rewrite length_app, xyz_length, IH. lia.
Qed.

Lemma extents_length (s : scene) :
  List.length (extents s) = (3 * Nat.min 5 (List.length (mesh_objects s)))%nat.
Proof. unfold extents. now rewrite flat_xyz_length, length_firstn. Qed.

Lemma get_obs_dims (s : scene) :
  dims (get_obs s)
  = extents s ++ repeat F64.zero (15 - List.length (extents s)).
Proof.
  unfold get_obs; cbn [dims].
  rewrite pad_to_spec, collect_dims_spec. cbn [app]. fold (extents s).
  apply firstn_all2.
  rewrite length_app, repeat_length.
  pose proof (extents_length s). lia.
Qed.

Lemma get_obs_dims_length (s : scene) :
  List.length (dims (get_obs s)) = 15%nat.
Proof.
  rewrite get_obs_dims, length_app, repeat_length.
  pose proof (extents_length s). lia.
Qed.

Lemma get_obs_bbox0_length (s : scene) :
  List.length (bbox0 (get_obs s)) = 3%nat.
Proof.
  unfold get_obs; cbn [bbox0].
  destruct (mesh_objects s); [reflexivity|apply xyz_length].
Qed.

Lemma obs_json_shape (s : scene) : obs_shape (obs_json (get_obs s)) = true.
Proof.
  assert (F : forall l, forallb is_float (map JFloat l) = true)
    by (induction l; simpl; auto).
  unfold obs_json, obs_shape. cbn -[get_obs forallb].
  rewrite !F, !length_map, get_obs_dims_length, get_obs_bbox0_length.
  reflexivity.
Qed.

Lemma step_unfold (action : Z) (w : world) :
  step action w
  = match dispatch action (mesh_objects (bpy_scene w)) w with
    | (w1, Returned _) =>
        let w2 := set_step_count (step_count w1 + 1) w1 in
        let obs := get_obs (bpy_scene w2) in
        (w2, Returned (obs, _compute_reward obs,
                       step_count w2 >=? max_steps w2, JDict []))
    | (w1, Raised e) => (w1, Raised e)
    end.
Proof.
  unfold step, bind, get, modify, _get_obs, ret, bind, get.
  destruct (dispatch action (mesh_objects (bpy_scene w)) w) as [w1 [u|e]];
    reflexivity.
Qed.

Lemma baseline_keeps_config (w : world) :
  usd_path (baseline w) = usd_path w
  /\ disk (baseline w) = disk w
  /\ max_steps (baseline w) = max_steps w
  /\ step_count (baseline w) = step_count w.
Proof.
  unfold baseline. destruct (usd_path w) as [p|] eqn:P.
  - destruct (negb (String.eqb p "") && path_exists p (disk w)).
    + destruct (usd_import _ _ _) as [s' [e|]]; cbn; now rewrite P.
    + cbn; now rewrite P.
  - cbn; now rewrite P.
Qed.

Lemma reset_unfold (w : world) :
  reset w = (set_step_count 0 (baseline w),
             Returned (get_obs (bpy_scene (baseline w)))).
Proof.
  unfold reset, baseline, bind, get, modify, _get_obs, ret, bind, get.
  cbn [usd_path disk set_scene bpy_scene].
  destruct (usd_path w) as [p|]; [|reflexivity].
  destruct (negb (String.eqb p "") && path_exists p (disk w));
    [|reflexivity].
  unfold try_except, bpy_op, emit_, modify. cbn [bpy_scene set_scene].
  destruct (usd_import p (disk w) (read_factory_settings (bpy_scene w)))
    as [s' [e|]]; reflexivity.
Qed.



End ObservationFacts.

(** * The episode: [step] and [reset] *)
Section EpisodeFacts.

Context {R : Runtime}.

Lemma set_scene_same (w : world) : set_scene (bpy_scene w) w = w.
Proof. now destruct w. Qed.

Lemma set_scene_twice (s s' : scene) (w : world) :
  set_scene s (set_scene s' w) = set_scene s w.
Proof. reflexivity. Qed.

Lemma scene_only_ret {A} (a : A) : scene_only (ret a).
Proof. intros w. cbn. now rewrite set_scene_same. Qed.

Lemma scene_only_get : scene_only get.
Proof. intros w. cbn. now rewrite set_scene_same. Qed.

Lemma scene_only_bpy_op op : scene_only (bpy_op op).
Proof. intros w. unfold bpy_op. now destruct (op (bpy_scene w)). Qed.

Lemma scene_only_bind {A B} (c : M A) (k : A -> M B) :
  scene_only c -> (forall a, scene_only (k a)) -> scene_only (bind c k).
Proof.
  intros Hc Hk w. unfold bind. specialize (Hc w).
  destruct (c w) as [w1 [a|e]]; cbn [fst] in *.
  - rewrite (Hk a w1). rewrite Hc at 2. reflexivity.
  - exact Hc.
Qed.

Lemma scene_only_try_except {A} (c : M A) (h : exn -> M A) :
  scene_only c -> (forall e, scene_only (h e)) -> scene_only (try_except c h).
Proof.
  intros Hc Hh w. unfold try_except. specialize (Hc w).
  destruct (c w) as [w1 [a|e]]; cbn [fst] in *.
  - exact Hc.
  - rewrite (Hh e w1). rewrite Hc at 2. reflexivity.
Qed.

Lemma scene_only_for_each {A} (l : list A) (body : A -> M unit) :
  (forall x, scene_only (body x)) -> scene_only (for_each l body).
Proof.
  intros Hb. induction l as [|x l IH]; cbn [for_each].
  - apply scene_only_ret.
  - apply scene_only_bind; auto.
Qed.

Create HintDb frame.
Hint Resolve scene_only_ret scene_only_get scene_only_bpy_op
     scene_only_bind scene_only_try_except scene_only_for_each : frame.

Lemma scene_only_layout_x (objs : list object) (x : float) :
  scene_only (layout_x objs x).
Proof.
  revert x. induction objs as [|o objs IH]; intros x; cbn [layout_x].
  - auto with frame.
  - apply scene_only_bind; [|auto].
    apply scene_only_try_except; [|auto with frame].
    apply scene_only_bind; [auto with frame|]. intros _.
    apply scene_only_bind; [auto with frame|]. intros w.
    destruct (dimensions (bpy_scene w) o) as [[dx dy] dz].
    auto with frame.
Qed.

Lemma scene_only_dispatch (action : Z) (objs : list object) :
  scene_only (dispatch action objs).
Proof.
  unfold dispatch, try_pass.
  destruct (action =? 0); [|destruct (action =? 1);
    [|destruct (action =? 2); [|destruct (action =? 3)]]].
  - apply scene_only_for_each. intros o. auto 6 with frame.
  - apply scene_only_for_each. intros o. auto 6 with frame.
  - apply scene_only_for_each. intros o.
    apply scene_only_try_except; [|auto with frame].
    apply scene_only_bind; [auto with frame|]. intros _.
    apply scene_only_bind; [auto with frame|]. intros w.
    destruct (negb (uv_layers (bpy_scene w) o)); auto with frame.
  - apply scene_only_layout_x.
  - auto with frame.
Qed.

Lemma returns_try_except {A} (c : M A) (h : exn -> M A) :
  (forall e, returns (h e)) -> returns (try_except c h).
Proof.
  intros Hh w. unfold try_except.
  destruct (c w) as [w1 [a|e]]; cbn [snd]; [now exists a|apply Hh].
Qed.

Lemma returns_ret {A} (a : A) : returns (ret a).
Proof. intros w. now exists a. Qed.

Lemma returns_bind {A B} (c : M A) (k : A -> M B) :
  returns c -> (forall a, returns (k a)) -> returns (bind c k).
Proof.
  intros Hc Hk w. unfold bind. destruct (Hc w) as [a Ha].
  destruct (c w) as [w1 r]; cbn [snd] in Ha; subst r. apply Hk.
Qed.

Lemma returns_for_each {A} (l : list A) (body : A -> M unit) :
  (forall x, returns (body x)) -> returns (for_each l body).
Proof.
  intros Hb. induction l as [|x l IH]; cbn [for_each].
  - apply returns_ret.
  - apply returns_bind; auto.
Qed.

Lemma returns_layout_x (objs : list object) (x : float) :
  returns (layout_x objs x).
Proof.
  revert x. induction objs as [|o objs IH]; intros x; cbn [layout_x].
  - apply returns_ret.
  - apply returns_bind; [|auto].
    apply returns_try_except. intros _. apply returns_ret.
Qed.

(** Only action 0 has a statement outside its [try]. *)
Lemma dispatch_returns (action : Z) (objs : list object) :
  action <> 0 -> returns (dispatch action objs).
Proof.
  intros H. unfold dispatch, try_pass.
  destruct (Z.eqb_spec action 0) as [E|_]; [contradiction|].
  destruct (action =? 1); [|destruct (action =? 2);
    [|destruct (action =? 3)]].
  - apply returns_for_each. intros o. apply returns_try_except.
    intros _. apply returns_ret.
  - apply returns_for_each. intros o. apply returns_try_except.
    intros _. apply returns_ret.
  - apply returns_layout_x.
  - apply returns_ret.
Qed.

Lemma dispatch_returns_active (objs : list object) :
  (forall o s, snd (set_active o s) = None) ->
  returns (dispatch 0 objs).
Proof.
  intros H. unfold dispatch, try_pass. cbn [Z.eqb].
  apply returns_for_each. intros o. apply returns_bind.
  - intros w. unfold bpy_op. specialize (H o (bpy_scene w)).
    destruct (set_active o (bpy_scene w)) as [s' r]; cbn [snd] in *.
    subst r. now exists tt.
  - intros _. apply returns_try_except. intros _. apply returns_ret.
Qed.

(** What a call of [step] leaves behind and hands back. *)
Lemma step_spec (action : Z) (w : world) :
  exists s' : scene,
    (step action w
     = (set_step_count (step_count w + 1) (set_scene s' w),
        Returned (get_obs s', _compute_reward (get_obs s'),
                  step_count w + 1 >=? max_steps w, JDict []))
     /\ exists u, dispatch action (mesh_objects (bpy_scene w)) w
                  = (set_scene s' w, Returned u))
    \/ (exists e, step action w = (set_scene s' w, Raised e) /\ action = 0).
Proof.
  rewrite step_unfold.
  pose proof (scene_only_dispatch action (mesh_objects (bpy_scene w)) w) as F.
  destruct (dispatch action (mesh_objects (bpy_scene w)) w) as [w1 [u|e]] eqn:D;
    cbn [fst] in F; exists (bpy_scene w1).
  - left. split; [|exists u; now rewrite <- F].
    cbv zeta. rewrite F. reflexivity.
  - right. exists e. split; [now rewrite <- F|].
    destruct (Z.eq_dec action 0) as [E|N]; [exact E|].
    destruct (dispatch_returns action (mesh_objects (bpy_scene w)) N w)
      as [a Ha].
    rewrite D in Ha. discriminate.
Qed.

End EpisodeFacts.

Section EpisodeClaims.

Context {R : Runtime}.

(** C5: an action outside {0, 1, 2, 3} dispatches nothing: the scene (and
    the files and the trace) stay as they are, [step_count] still goes up
    by one, and the call returns the observation of the unchanged scene,
    its reward, the done flag and an empty info dict. *)
Theorem other_action_is_noop (action : Z) (w : world) :
  action <> 0 -> action <> 1 -> action <> 2 -> action <> 3 ->
  let obs := get_obs (bpy_scene w) in
  dispatch action (mesh_objects (bpy_scene w)) w = (w, Returned tt)
  /\ step action w
     = (set_step_count (step_count w + 1) w,
        Returned (obs, _compute_reward obs,
                  step_count w + 1 >=? max_steps w, JDict []))
  /\ bpy_scene (fst (step action w)) = bpy_scene w
  /\ step_count (fst (step action w)) = step_count w + 1
  /\ obs_shape (obs_json obs) = true.
Proof.
  intros H0 H1 H2 H3 obs.
  assert (D : dispatch action (mesh_objects (bpy_scene w)) w
              = (w, Returned tt)).
  { unfold dispatch.
    destruct (Z.eqb_spec action 0); [contradiction|].
    destruct (Z.eqb_spec action 1); [contradiction|].
    destruct (Z.eqb_spec action 2); [contradiction|].
    destruct (Z.eqb_spec action 3); [contradiction|].
    reflexivity. }
  assert (S : step action w
     = (set_step_count (step_count w + 1) w,
        Returned (obs, _compute_reward obs,
                  step_count w + 1 >=? max_steps w, JDict []))).
  { rewrite step_unfold, D. reflexivity. }
  split; [exact D|]. split; [exact S|]. rewrite S. cbn.
  repeat split. apply obs_json_shape.
Qed.

Lemma bind_returned {A B} (c : M A) (k : A -> M B) w w1 a :
  c w = (w1, Returned a) -> bind c k w = k a w1.
Proof. intros E. unfold bind. now rewrite E. Qed.

Lemma bind_raised {A B} (c : M A) (k : A -> M B) w w1 e :
  c w = (w1, Raised e) -> bind c k w = (w1, Raised e).
Proof. intros E. unfold bind. now rewrite E. Qed.

Lemma run_steps_spec (actions : list Z) :
  forall w,
    (exists w' rs,
        run_steps actions w = (w', Returned rs)
        /\ step_count w' = step_count w + Z.of_nat (List.length actions)
        /\ max_steps w' = max_steps w
        /\ List.length rs = List.length actions
        /\ forall k obs reward done info,
             nth_error rs k = Some (obs, reward, done, info) ->
             done = (step_count w + Z.of_nat (S k) >=? max_steps w))
    \/ (In 0 actions
        /\ exists w' e, run_steps actions w = (w', Raised e)).
Proof.
  induction actions as [|a actions IH]; intros w.
  - left. exists w, []. cbn. repeat split; try lia.
    intros [|k]; discriminate.
  - cbn [run_steps].
    destruct (step_spec a w) as [s' [[E _]|[e [E A]]]].
    + rewrite (bind_returned _ _ _ _ _ E).
      destruct (IH (set_step_count (step_count w + 1) (set_scene s' w)))
        as [[w' [rs [Hr [Hc [Hm [Hl Hd]]]]]]|[Hin [w' [e Hr]]]].
      * left. rewrite (bind_returned _ _ _ _ _ Hr). cbn [ret].
        eexists; eexists; split; [reflexivity|].
        cbn [step_count max_steps set_step_count set_scene] in *.
        repeat split.
        -- rewrite Hc. cbn [List.length]. lia.
        -- exact Hm.
        -- cbn [List.length]. now rewrite Hl.
        -- intros [|k] obs reward done info N; cbn in N.
           ++ inversion N; subst. reflexivity.
           ++ rewrite (Hd k _ _ _ _ N). f_equal. lia.
      * right. split; [now right|]. rewrite (bind_raised _ _ _ _ _ Hr).
        now exists w', e.
    + right. split; [now left|]. rewrite (bind_raised _ _ _ _ _ E).
      now exists (set_scene s' w), e.
Qed.

Lemma run_steps_returns (actions : list Z) (w : world) :
  ~ In 0 actions -> exists w' rs, run_steps actions w = (w', Returned rs).
Proof.
  intros N. destruct (run_steps_spec actions w)
    as [[w' [rs [Hr _]]]|[Hin _]]; [now exists w', rs|contradiction].
Qed.


End EpisodeClaims.

Section ResetClaims.

Context {R : Runtime}.

Lemma step_keeps_config (action : Z) (w : world) :
  usd_path (fst (step action w)) = usd_path w
  /\ disk (fst (step action w)) = disk w
  /\ trace (fst (step action w)) = trace w
  /\ max_steps (fst (step action w)) = max_steps w.
Proof.
  destruct (step_spec action w) as [s' [[E _]|[e [E _]]]]; rewrite E;
    repeat split.
Qed.

Lemma steps_between_keeps_config (actions : list Z) :
  forall w,
    usd_path (steps_between actions w) = usd_path w
    /\ disk (steps_between actions w) = disk w.
Proof.
  induction actions as [|a actions IH]; intros w; cbn [steps_between].
  - split; reflexivity.
  - destruct (IH (fst (step a w))) as [U D].
    destruct (step_keeps_config a w) as [U' [D' _]].
    split; congruence.
Qed.

(** The one fact about Blender the claim rests on: the factory settings
    do not depend on the scene they replace. *)
Hypothesis factory_settings_fixed :
  forall s s' : scene, read_factory_settings s = read_factory_settings s'.

Lemma baseline_scene_determined (w w' : world) :
  usd_path w = usd_path w' -> disk w = disk w' ->
  bpy_scene (baseline w) = bpy_scene (baseline w').
Proof.
  intros U D. unfold baseline. rewrite <- U, <- D.
  cbn [bpy_scene set_scene].
  rewrite (factory_settings_fixed (bpy_scene w') (bpy_scene w)).
  destruct (usd_path w) as [p|]; [|reflexivity].
  destruct (negb (String.eqb p "") && path_exists p (disk w));
    [|reflexivity].
  destruct (usd_import _ _ _) as [s' [e|]]; reflexivity.
Qed.

(** C8: with the asset path the worker was started with (or none) and the
    files as they are, [reset] called again after any number of steps, of
    any actions, returns the observation the first [reset] returned, on
    the same scene, with [step_count] back at 0. *)
Theorem reset_is_idempotent (w : world) (actions : list Z) :
  let w1 := fst (reset w) in
  let w2 := steps_between actions w1 in
  let w3 := fst (reset w2) in
  (exists obs,
      snd (reset w) = Returned obs /\ snd (reset w2) = Returned obs)
  /\ bpy_scene w3 = bpy_scene w1
  /\ step_count w1 = 0 /\ step_count w3 = 0.
Proof.
  intros w1 w2 w3.
  destruct (steps_between_keeps_config actions w1) as [U D].
  fold w2 in U, D.
  assert (U1 : usd_path w1 = usd_path w /\ disk w1 = disk w).
  { subst w1. rewrite reset_unfold. cbn [fst usd_path disk set_step_count].
    destruct (baseline_keeps_config w) as [Hu [Hd _]]. now split. }
  destruct U1 as [U1 D1].
  assert (B : bpy_scene (baseline w2) = bpy_scene (baseline w))
    by (apply baseline_scene_determined; congruence).
  assert (S1 : bpy_scene w1 = bpy_scene (baseline w))
    by (subst w1; now rewrite reset_unfold).
  split; [|split; [|split]].
  - exists (get_obs (bpy_scene (baseline w))).
    rewrite !reset_unfold. cbn [snd]. now rewrite B.
  - subst w3. rewrite reset_unfold. cbn [fst bpy_scene set_step_count].
    congruence.
  - subst w1. now rewrite reset_unfold.
  - subst w3. now rewrite reset_unfold.
Qed.

End ResetClaims.

(** * The connection handler and the listener *)
Section ServerFacts.

Context {R : Runtime}.

Lemma emits_trace (es : list event) :
  forall w, trace (emits es w) = trace w ++ es
            /\ usd_path (emits es w) = usd_path w
            /\ step_count (emits es w) = step_count w
            /\ max_steps (emits es w) = max_steps w
            /\ bpy_scene (emits es w) = bpy_scene w
            /\ disk (emits es w) = disk w.
Proof.
  induction es as [|e es IH]; intros w; cbn [emits fold_left].
  - now rewrite app_nil_r.
  - destruct (IH (emit e w)) as [T [U [C [X [S D]]]]]. fold (emits es (emit e w)).
    rewrite T, U, C, X, S, D. cbn. rewrite <- app_assoc. now repeat split.
Qed.

Lemma replies_app (t t' : list event) :
  replies (t ++ t') = replies t ++ replies t'.
Proof.
  induction t as [|e t IH]; [reflexivity|].
  destruct e; cbn; now rewrite ?IH.
Qed.

(** The listener outlives every session, however it ends. *)
Lemma accept_loop_cons (conn : list line) (conns : list (list line))
      (w : world) :
  accept_loop (conn :: conns) w = accept_loop conns (session conn w).
Proof.
  cbn [accept_loop]. unfold session, bind, emit_, modify, try_finally,
    try_except, emits. cbn [fold_left].
  destruct (handle_client conn (emit PrintConnected (emit Accepted w)))
    as [w1 [u|e]]; reflexivity.
Qed.

Lemma handle_client_served (pre : list json) (rest : list line) :
  forall w w1,
    served pre w w1 ->
    handle_client (map Valid pre ++ rest) w = handle_client rest w1.
Proof.
  induction pre as [|data pre IH]; intros w w1 S; inversion S; subst.
  - reflexivity.
  - cbn [map app handle_client].
    rewrite (bind_returned _ _ _ _ _ H1). now apply IH.
Qed.

Lemma handle_client_raised (data : json) (rest : list line) (w w1 : world)
      (e : exn) :
  handle_line data w = (w1, Raised e) ->
  handle_client (Valid data :: rest) w = (w1, Raised e).
Proof. intros H. cbn [handle_client]. now apply bind_raised. Qed.

Lemma handle_line_dict (d : list (string * json)) :
  handle_line (JDict d)
  = let cmd := field d "cmd" JNull in
    if is_str cmd "reset" then
      obs <- reset ;;
      send (JDict [("obs", obs_json obs)]) ;;
      ret Continue
    else if is_str cmd "step" then
      action <- lift (py_int (field d "action" (JInt 0))) ;;
      '(obs, reward, done, info) <- step action ;;
      send (JDict [("obs", obs_json obs); ("reward", JFloat reward);
                   ("done", JBool done); ("info", info)]) ;;
      ret Continue
    else if is_str cmd "ping" then
      send (JDict [("pong", JBool true)]) ;;
      ret Continue
    else if is_str cmd "save" then
      let path := field d "path" JNull in
      try_except
        (if truthy path then
           export path ;;
           send (JDict [("saved", JBool true); ("path", path)])
         else
           send (JDict [("saved", JBool false); ("error", JStr "no path")]))
        (fun e =>
           send (JDict [("saved", JBool false);
                        ("error", JStr (str_exn e))])) ;;
      ret Continue
    else if is_str cmd "close" then
      send (JDict [("closed", JBool true)]) ;;
      ret Break
    else
      send (JDict [("error", JStr "unknown_cmd")]) ;;
      ret Continue.
Proof. reflexivity. Qed.

Lemma handle_line_not_dict (data : json) (w : world) :
  (forall d, data <> JDict d) ->
  handle_line data w = (w, Raised (AttributeError "")).
Proof.
  intros H. destruct data; try reflexivity. now destruct (H d).
Qed.

(** C7: in any state, a [ping] request is answered with [{"pong": true}]
    and nothing else happens: the environment's [step_count] and
    [max_steps], the scene and the files are as before; the trace has
    gained the reply. *)
Theorem ping_changes_nothing (d : list (string * json)) (w : world) :
  dict_get d "cmd" = Some (JStr "ping") ->
  let w' := fst (handle_line (JDict d) w) in
  handle_line (JDict d) w
  = (emit (Sent (JDict [("pong", JBool true)])) w, Returned Continue)
  /\ trace w' = trace w ++ [Sent (JDict [("pong", JBool true)])]
  /\ step_count w' = step_count w
  /\ max_steps w' = max_steps w
  /\ bpy_scene w' = bpy_scene w
  /\ disk w' = disk w
  /\ usd_path w' = usd_path w.
Proof.
  intros H w'. subst w'. rewrite handle_line_dict. unfold field.
  rewrite H. cbv zeta. cbn [is_str String.eqb Ascii.eqb Bool.eqb].
  repeat split.
Qed.

End ServerFacts.

Section ReplyFacts.

Context {R : Runtime}.

Lemma baseline_trace (w : world) :
  exists log, trace (baseline w) = trace w ++ log /\ replies log = [].
Proof.
  unfold baseline. destruct (usd_path w) as [p|].
  - destruct (negb (String.eqb p "") && path_exists p (disk w)).
    + destruct (usd_import _ _ _) as [s' [e|]].
      * exists [PrintImportError e]. now split.
      * exists []. cbn. now rewrite app_nil_r.
    + exists []. cbn. now rewrite app_nil_r.
  - exists []. cbn. now rewrite app_nil_r.
Qed.

Lemma wf_obs_reply (o : json) :
  obs_shape o = true -> well_formed_reply (JDict [("obs", o)]) = true.
Proof.
  intros H. cbv beta iota delta [well_formed_reply success_payload].
  now rewrite H.
Qed.

Lemma wf_step_reply (o : json) (r : float) (b : bool) :
  obs_shape o = true ->
  well_formed_reply (JDict [("obs", o); ("reward", JFloat r);
                            ("done", JBool b); ("info", JDict [])]) = true.
Proof.
  intros H. cbv beta iota delta [well_formed_reply success_payload].
  now rewrite H.
Qed.

Lemma bind_lift_returned {A B} (a : A) (k : A -> M B) (w : world) :
  bind (lift (Returned a)) k w = k a w.
Proof. reflexivity. Qed.

Lemma bind_lift_raised {A B} (e : exn) (k : A -> M B) (w : world) :
  bind (lift (Raised e)) k w = (w, Raised e).
Proof. reflexivity. Qed.

Lemma handle_line_outcome (data : json) (w : world) :
  replied data w
  \/ exists w2 e,
       handle_line data w = (w2, Raised e)
       /\ trace w2 = trace w
       /\ raise_cause data e.
Proof.
  destruct data as [ | b | n | f | s | l | d ];
    try (right; exists w, (AttributeError ""); split; [reflexivity|];
         split; [reflexivity|]; left; intros d; discriminate).
  unfold replied. rewrite handle_line_dict. cbv zeta.
  destruct (is_str (field d "cmd" JNull) "reset") eqn:Creset.
  { left. rewrite (bind_returned _ _ _ _ _ (reset_unfold w)).
    destruct (baseline_trace w) as [log [T L]].
    eexists; eexists; exists (JDict [("obs", obs_json (get_obs (bpy_scene (baseline w))))]), log.
    split; [reflexivity|]. split; [|split; [exact L|]].
    - cbn. rewrite T. now rewrite app_assoc.
    - apply wf_obs_reply, obs_json_shape. }
  destruct (is_str (field d "cmd" JNull) "step") eqn:Cstep.
  { destruct (py_int (field d "action" (JInt 0))) as [n|e] eqn:I.
    - rewrite bind_lift_returned.
      destruct (step_spec n w) as [s' [[E _]|[e [E A]]]].
      + left. rewrite (bind_returned _ _ _ _ _ E).
        eexists; eexists; eexists; exists [].
        split; [reflexivity|]. split; [reflexivity|]. split; [reflexivity|].
        apply wf_step_reply, obs_json_shape.
      + right. rewrite (bind_raised _ _ _ _ _ E).
        exists (set_scene s' w), e. split; [reflexivity|].
        split; [reflexivity|]. right. exists d. subst n. auto.
    - right. rewrite bind_lift_raised.
      exists w, e. split; [reflexivity|]. split; [reflexivity|].
      right. exists d. auto. }
  destruct (is_str (field d "cmd" JNull) "ping").
  { left. eexists; eexists; eexists; exists [].
    split; [reflexivity|]. repeat split. }
  destruct (is_str (field d "cmd" JNull) "save").
  { left. destruct (truthy (field d "path" JNull)) eqn:P.
    - unfold bind, try_except, export, send, emit_, modify, ret.
      destruct (usd_export (field d "path" JNull) (bpy_scene w) (disk w))
        as [d' [e|]]; eexists; eexists; eexists; exists [];
        (split; [reflexivity|]); repeat split.
    - eexists; eexists; eexists; exists [].
      split; [reflexivity|]. repeat split. }
  destruct (is_str (field d "cmd" JNull) "close").
  { left. eexists; eexists; eexists; exists [].
    split; [reflexivity|]. repeat split. }
  left. eexists; eexists; eexists; exists [].
  split; [reflexivity|]. repeat split.
Qed.

End ReplyFacts.

Section SessionClaims.

Context {R : Runtime}.

Lemma session_raised (pre : list json) (data : json) (post : list line)
      (conns : list (list line)) (w w1 w2 : world) (e : exn) :
  served pre (emits [Accepted; PrintConnected] w) w1 ->
  handle_line data w1 = (w2, Raised e) ->
  accept_loop ((map Valid pre ++ Valid data :: post) :: conns) w
  = accept_loop conns (emits [PrintTraceback e; SocketClosed] w2).
Proof.
  intros S H. rewrite accept_loop_cons. unfold session.
  rewrite (handle_client_served _ _ _ _ S).
  now rewrite (handle_client_raised _ _ _ _ _ H).
Qed.


(** C6: when the line read is not valid JSON, the handler prints it,
    writes no reply and leaves the loop, so the lines after it are never
    read; the environment is untouched.  The listener closes the socket
    and serves the connections that follow from the state it is in. *)
Theorem invalid_json_ends_only_the_session
        (pre : list json) (raw : string) (post : list line)
        (conns : list (list line)) (w w1 : world) :
  served pre (emits [Accepted; PrintConnected] w) w1 ->
  let conn := map Valid pre ++ Invalid raw :: post in
  let w2 := emits [PrintInvalidJson raw; PrintDisconnected; SocketClosed] w1 in
  handle_client conn (emits [Accepted; PrintConnected] w)
  = (emits [PrintInvalidJson raw; PrintDisconnected] w1, Returned tt)
  /\ session conn w = w2
  /\ replies (trace w2) = replies (trace w1)
  /\ (bpy_scene w2 = bpy_scene w1 /\ step_count w2 = step_count w1
      /\ disk w2 = disk w1)
  /\ accept_loop (conn :: conns) w = accept_loop conns w2.
Proof.
  intros S conn w2.
  assert (H : handle_client conn (emits [Accepted; PrintConnected] w)
              = (emits [PrintInvalidJson raw; PrintDisconnected] w1,
                 Returned tt)).
  { subst conn. rewrite (handle_client_served _ _ _ _ S). reflexivity. }
  assert (Hs : session conn w = w2).
  { unfold session. rewrite H. reflexivity. }
  split; [exact H|]. split; [exact Hs|]. split; [|split].
  - subst w2. destruct (emits_trace
      [PrintInvalidJson raw; PrintDisconnected; SocketClosed] w1) as [T _].
    rewrite T, replies_app. cbn. now rewrite app_nil_r.
  - repeat split.
  - now rewrite accept_loop_cons, Hs.
Qed.

Lemma trunc_toward_zero (s : bool) (m : positive) (e : Z) :
  exists n,
    F64.trunc (S754_finite s m e) = Some n
    /\ (if s then n <= 0 else 0 <= n)
    /\ if e <? 0
       then Z.abs n * 2 ^ (- e) <= Zpos m < (Z.abs n + 1) * 2 ^ (- e)
       else Z.abs n = Zpos m * 2 ^ e.
Proof.
  unfold F64.trunc. destruct e as [|p|p].
  - exists (if s then - (Zpos m * 2 ^ 0) else Zpos m * 2 ^ 0).
    split; [reflexivity|]. cbn [Z.ltb Z.compare]. destruct s; split; lia.
  - exists (if s then - (Zpos m * 2 ^ Zpos p) else Zpos m * 2 ^ Zpos p).
    split; [reflexivity|]. cbn [Z.ltb Z.compare].
    assert (0 < 2 ^ Zpos p) by (apply Z.pow_pos_nonneg; lia).
    destruct s; split; nia.
  - exists (if s then - (Z.quot (Zpos m) (2 ^ Zpos p))
            else Z.quot (Zpos m) (2 ^ Zpos p)).
    split; [reflexivity|]. cbn [Z.ltb Z.compare Z.opp].
    assert (P : 0 < 2 ^ Zpos p) by (apply Z.pow_pos_nonneg; lia).
    rewrite Z.quot_div_nonneg by lia.
    pose proof (Z.div_pos (Zpos m) (2 ^ Zpos p) ltac:(lia) P) as Q.
    pose proof (Z.mul_div_le (Zpos m) (2 ^ Zpos p) P) as L.
    pose proof (Z.mul_succ_div_gt (Zpos m) (2 ^ Zpos p) P) as U.
    destruct s; split; try lia;
      rewrite ?Z.abs_opp, Z.abs_eq by lia; lia.
Qed.

(** C9: the handler passes the request's [action] through [int]: a float
    is cut toward zero (for 2.9 the handler does exactly what it does for
    2); a value [int] rejects makes it raise before anything is written,
    which ends the session without a reply to the request, the listener
    going on to the next connection.  [null] is such a value, and so is
    the string "abc" once [int] rejects it. *)
Theorem step_action_is_coerced_with_int
        (pre : list json) (d : list (string * json)) (post : list line)
        (conns : list (list line)) (w w1 : world) :
  served pre (emits [Accepted; PrintConnected] w) w1 ->
  is_str (field d "cmd" JNull) "step" = true ->
  let a := field d "action" (JInt 0) in
  (forall n, py_int a = Returned n ->
             handle_line (JDict d) w1
             = ('(obs, reward, done, info) <- step n ;;
                send (JDict [("obs", obs_json obs); ("reward", JFloat reward);
                             ("done", JBool done); ("info", info)]) ;;
                ret Continue) w1)
  /\ py_int (JFloat F64.c_2_9) = Returned 2
  /\ py_int (JFloat (F64.opp F64.c_2_9)) = Returned (-2)
  /\ (forall s m e, exists n,
         py_int (JFloat (S754_finite s m e)) = Returned n
         /\ (if s then n <= 0 else 0 <= n)
         /\ if e <? 0
            then Z.abs n * 2 ^ (- e) <= Zpos m < (Z.abs n + 1) * 2 ^ (- e)
            else Z.abs n = Zpos m * 2 ^ e)
  /\ (forall e, py_int a = Raised e ->
                handle_line (JDict d) w1 = (w1, Raised e)
                /\ handle_client (map Valid pre ++ Valid (JDict d) :: post)
                                 (emits [Accepted; PrintConnected] w)
                   = (w1, Raised e)
                /\ accept_loop
                     ((map Valid pre ++ Valid (JDict d) :: post) :: conns) w
                   = accept_loop conns
                       (emits [PrintTraceback e; SocketClosed] w1)
                /\ replies (trace (emits [PrintTraceback e; SocketClosed] w1))
                   = replies (trace w1))
  /\ py_int JNull = Raised (TypeError "")
  /\ (int_of_str "abc" = None ->
      py_int (JStr "abc") = Raised (ValueError "")).
Proof.
  intros S C a.
  assert (NR : is_str (field d "cmd" JNull) "reset" = false).
  { destruct (field d "cmd" JNull); try reflexivity.
    cbn [is_str] in *. apply String.eqb_eq in C. now subst. }
  split; [|split; [reflexivity|split; [reflexivity|split; [|split; [|split]]]]].
  - intros n I. rewrite handle_line_dict. cbv zeta. rewrite NR, C.
    fold a. rewrite I. reflexivity.
  - intros s m e. destruct (trunc_toward_zero s m e) as [n [T P]].
    exists n. cbn [py_int]. now rewrite T.
  - intros e I.
    assert (H : handle_line (JDict d) w1 = (w1, Raised e)).
    { rewrite handle_line_dict. cbv zeta. rewrite NR, C. fold a.
      rewrite I. reflexivity. }
    split; [exact H|]. split; [|split].
    + rewrite (handle_client_served _ _ _ _ S).
      now apply handle_client_raised.
    + now apply session_raised with (w1 := w1).
    + destruct (emits_trace [PrintTraceback e; SocketClosed] w1) as [T _].
      rewrite T, replies_app. cbn. now rewrite app_nil_r.
  - reflexivity.
  - intros H. cbn [py_int]. now rewrite H.
Qed.

End SessionClaims.

(** * The reward *)
Section RewardFormula.

(** Subtracting is adding the opposite, bit for bit. *)
Lemma sub_is_add_opp (x y : float) : F64.sub x y = F64.add x (F64.opp y).
Proof.
  unfold F64.sub, F64.add, F64.opp.
  destruct x as [sx|sx| |sx mx ex], y as [sy|sy| |sy my ey];
    try reflexivity;
    destruct sx, sy; reflexivity.
Qed.

Lemma binary_round_aux_opp (s : bool) (m e : Z) (l : location) :
  binary_round_aux F64.prec F64.emax (negb s) m e l
  = SFopp (binary_round_aux F64.prec F64.emax s m e l).
Proof.
  unfold binary_round_aux.
  destruct (shr_fexp F64.prec F64.emax m e l) as [mrs' e'].
  destruct (shr_fexp _ _ _ e' loc_Exact) as [mrs'' e''].
  destruct (shr_m mrs''); try reflexivity.
  destruct (e'' <=? F64.emax - F64.prec); reflexivity.
Qed.

Lemma mul_opp_l (x y : float) :
  F64.mul (F64.opp x) y = F64.opp (F64.mul x y).
Proof.
  unfold F64.mul, F64.opp.
  destruct x as [sx|sx| |sx mx ex], y as [sy|sy| |sy my ey];
    try reflexivity;
    try (destruct sx, sy; reflexivity).
  cbn [SFmul SFopp].
  replace (xorb (negb sx) sy) with (negb (xorb sx sy))
    by (destruct sx, sy; reflexivity).
  apply binary_round_aux_opp.
Qed.

(** C2: the reward [_compute_reward] returns is the value of the
    specification's formula, for every observation; it reads nothing but
    [n_tris] and [n_objs] (and, being a function of the observation, changes
    nothing).  At (0, 0) it is a zero (the negative one, equal to 0.0), at
    (1000, 10) it is -1.04. *)
Theorem reward_is_the_formula :
  (forall obs : observation,
      _compute_reward obs = reward_formula (n_tris obs) (n_objs obs))
  /\ (forall obs obs' : observation,
         n_tris obs = n_tris obs' -> n_objs obs = n_objs obs' ->
         _compute_reward obs = _compute_reward obs')
  /\ (forall b d,
         F64.eqb (_compute_reward {| n_objs := 0; n_tris := 0;
                                     bbox0 := b; dims := d |}) F64.zero = true
         /\ _compute_reward {| n_objs := 0; n_tris := 0;
                               bbox0 := b; dims := d |} = F64.neg_zero)
  /\ (forall b d,
         _compute_reward {| n_objs := 10; n_tris := 1000;
                            bbox0 := b; dims := d |} = F64.opp F64.c_1_04).
Proof.
  split; [|split; [|split]].
  - intros obs. unfold _compute_reward, reward_formula.
    rewrite sub_is_add_opp. f_equal. apply mul_opp_l.
  - intros obs obs' T O. unfold _compute_reward. now rewrite T, O.
  - intros b d. split; vm_compute; reflexivity.
  - intros b d. vm_compute. reflexivity.
Qed.

End RewardFormula.

(** * Binary64 rounding

    The standard library's [binary_round_aux], for a mantissa of at least
    53 bits away from the subnormal and the overflow range, rounds as
    [round53] does; [round53] is monotone and commutes with scaling. *)
Section Rounding.

Lemma rne_bounds (M n : Z) :
  M / 2 ^ n <= rne M n <= M / 2 ^ n + 1.
Proof.
  unfold rne. cbv zeta.
  destruct (2 * (M mod 2 ^ n) ?= 2 ^ n); [destruct (Z.even _)| |]; lia.
Qed.

Lemma rne_mono (M1 M2 n : Z) :
  0 <= n -> M1 <= M2 -> rne M1 n <= rne M2 n.
Proof.
  intros Hn H.
  assert (P : 0 < 2 ^ n) by (apply Z.pow_pos_nonneg; lia).
  pose proof (Z.div_le_mono M1 M2 (2 ^ n) P H) as Q.
  destruct (Z.eq_dec (M1 / 2 ^ n) (M2 / 2 ^ n)) as [E|N].
  - assert (Hr : M1 mod 2 ^ n <= M2 mod 2 ^ n).
    { rewrite !Z.mod_eq by lia. rewrite E. lia. }
    unfold rne. cbv zeta. rewrite E.
    destruct (2 * (M1 mod 2 ^ n) ?= 2 ^ n) eqn:C1;
      destruct (2 * (M2 mod 2 ^ n) ?= 2 ^ n) eqn:C2;
      rewrite ?Z.compare_eq_iff, ?Z.compare_lt_iff, ?Z.compare_gt_iff in *;
      destruct (Z.even (M2 / 2 ^ n)); lia.
  - pose proof (rne_bounds M1 n). pose proof (rne_bounds M2 n). lia.
Qed.

Lemma rne_exact (q n : Z) : 0 <= n -> rne (q * 2 ^ n) n = q.
Proof.
  intros Hn. assert (P : 0 < 2 ^ n) by (apply Z.pow_pos_nonneg; lia).
  unfold rne. cbv zeta. rewrite Z.mod_mul, Z.div_mul by lia.
  destruct (2 * 0 ?= 2 ^ n) eqn:C; [|reflexivity|];
    rewrite ?Z.compare_eq_iff, ?Z.compare_gt_iff in C; lia.
Qed.

Lemma compare_scale (a b c : Z) : 0 < c -> (a * c ?= b * c) = (a ?= b).
Proof.
  intros H. destruct (Z.compare_spec a b) as [E|L|G].
  - subst. apply Z.compare_refl.
  - apply Z.compare_lt_iff. nia.
  - apply Z.compare_gt_iff. nia.
Qed.

Lemma rne_shift (M n k : Z) :
  0 <= n -> 0 <= k -> rne (M * 2 ^ k) (n + k) = rne M n.
Proof.
  intros Hn Hk.
  assert (P : 0 < 2 ^ n) by (apply Z.pow_pos_nonneg; lia).
  assert (Pk : 0 < 2 ^ k) by (apply Z.pow_pos_nonneg; lia).
  unfold rne. cbv zeta. rewrite Z.pow_add_r by lia.
  rewrite Z.div_mul_cancel_r by lia.
  rewrite Z.mul_mod_distr_r by lia.
  replace (2 * (M mod 2 ^ n * 2 ^ k)) with (2 * (M mod 2 ^ n) * 2 ^ k) by ring.
  rewrite compare_scale by exact Pk. reflexivity.
Qed.

Lemma round53_bounds (M : Z) :
  0 < M -> 2 ^ Z.log2 M <= round53 M <= 2 ^ (Z.log2 M + 1).
Proof.
  intros HM. destruct (Z.log2_spec M HM) as [L U].
  unfold round53. cbv zeta. destruct (Z.leb_spec (Z.log2 M - 52) 0) as [H|H].
  - replace (Z.log2 M + 1) with (Z.succ (Z.log2 M)) by lia. lia.
  - set (n := Z.log2 M - 52) in *.
    assert (P : 0 < 2 ^ n) by (apply Z.pow_pos_nonneg; lia).
    assert (E1 : 2 ^ Z.log2 M = 2 ^ 52 * 2 ^ n)
      by (rewrite <- Z.pow_add_r by lia; f_equal; lia).
    assert (E2 : 2 ^ (Z.log2 M + 1) = 2 ^ 53 * 2 ^ n)
      by (rewrite <- Z.pow_add_r by lia; f_equal; lia).
    replace (Z.succ (Z.log2 M)) with (Z.log2 M + 1) in U by lia.
    pose proof (rne_bounds M n) as [B1 B2].
    assert (Q1 : 2 ^ 52 <= M / 2 ^ n).
    { apply Z.div_le_lower_bound; lia. }
    assert (Q2 : M / 2 ^ n < 2 ^ 53).
    { apply Z.div_lt_upper_bound; lia. }
    rewrite E1, E2. split; apply Z.mul_le_mono_nonneg_r; lia.
Qed.

Lemma round53_nonneg (M : Z) : 0 <= M -> 0 <= round53 M.
Proof.
  intros H. destruct (Z.eq_dec M 0) as [->|N]; [now vm_compute|].
  pose proof (round53_bounds M ltac:(lia)).
  assert (0 < 2 ^ Z.log2 M) by (apply Z.pow_pos_nonneg; [lia|apply Z.log2_nonneg]). lia.
Qed.

Lemma round53_pos (M : Z) : 0 < M -> 0 < round53 M.
Proof.
  intros H. pose proof (round53_bounds M H).
  assert (0 < 2 ^ Z.log2 M) by (apply Z.pow_pos_nonneg; [lia|apply Z.log2_nonneg]). lia.
Qed.

Lemma round53_mono (M1 M2 : Z) :
  0 <= M1 -> M1 <= M2 -> round53 M1 <= round53 M2.
Proof.
  intros H0 H.
  destruct (Z.eq_dec M1 0) as [->|N].
  { apply round53_nonneg. lia. }
  pose proof (Z.log2_le_mono M1 M2 H) as L.
  destruct (Z.eq_dec (Z.log2 M1) (Z.log2 M2)) as [E|NE].
  - unfold round53. cbv zeta. rewrite E.
    destruct (Z.leb_spec (Z.log2 M2 - 52) 0) as [Hn|Hn]; [exact H|].
    apply Z.mul_le_mono_nonneg_r.
    + apply Z.pow_nonneg; lia.
    + apply rne_mono; lia.
  - pose proof (round53_bounds M1 ltac:(lia)) as [_ U].
    pose proof (round53_bounds M2 ltac:(lia)) as [B _].
    assert (2 ^ (Z.log2 M1 + 1) <= 2 ^ Z.log2 M2)
      by (apply Z.pow_le_mono_r; lia).
    lia.
Qed.

Lemma round53_shift (M k : Z) :
  0 < M -> 0 <= k -> round53 (M * 2 ^ k) = round53 M * 2 ^ k.
Proof.
  intros HM Hk. unfold round53. cbv zeta.
  rewrite Z.log2_mul_pow2 by lia.
  destruct (Z.leb_spec (Z.log2 M - 52) 0) as [H|H];
    destruct (Z.leb_spec (k + Z.log2 M - 52) 0) as [H'|H']; try lia.
  - set (j := k + Z.log2 M - 52) in *.
    replace (M * 2 ^ k) with (M * 2 ^ (k - j) * 2 ^ j).
    + rewrite rne_exact by lia. reflexivity.
    + rewrite <- Z.mul_assoc, <- Z.pow_add_r by lia. do 2 f_equal. lia.
  - replace (k + Z.log2 M - 52) with (Z.log2 M - 52 + k) by lia.
    rewrite rne_shift by lia. rewrite Z.pow_add_r by lia. ring.
Qed.

Lemma round53_small (M : Z) : Z.log2 M <= 52 -> round53 M = M.
Proof.
  intros H. unfold round53. cbv zeta.
  destruct (Z.leb_spec (Z.log2 M - 52) 0); [reflexivity|lia].
Qed.

(** ** The standard library's rounding, read as [round53] *)

Lemma digits2_size (m : positive) : digits2_pos m = Pos.size m.
Proof. induction m; simpl; congruence. Qed.

Lemma Zdigits2_log2 (z : Z) : 0 < z -> Zdigits2 z = Z.log2 z + 1.
Proof.
  destruct z as [|p|p]; try lia. intros _. cbn [Zdigits2].
  rewrite digits2_size. destruct p; cbn [Pos.size Z.log2]; lia.
Qed.

Lemma iter_pos_nat {A} (f : A -> A) (p : positive) :
  forall x, iter_pos f p x = Nat.iter (Pos.to_nat p) f x.
Proof.
  induction p as [p IH|p IH|]; intros x; cbn [iter_pos].
  - rewrite !IH, Pos2Nat.inj_xI.
    replace (S (2 * Pos.to_nat p)) with (S (Pos.to_nat p + Pos.to_nat p))
      by lia.
    now rewrite Nat.iter_succ_r, Nat.iter_add.
  - rewrite !IH, Pos2Nat.inj_xO.
    replace (2 * Pos.to_nat p)%nat with (Pos.to_nat p + Pos.to_nat p)%nat
      by lia.
    now rewrite Nat.iter_add.
  - reflexivity.
Qed.

Lemma shr_1_nonneg (m : Z) (r s : bool) :
  0 <= m ->
  shr_1 {| shr_m := m; shr_r := r; shr_s := s |}
  = {| shr_m := m / 2; shr_r := Z.odd m; shr_s := r || s |}.
Proof.
  intros H. rewrite <- Z.div2_div.
  destruct m as [|p|p]; [reflexivity| |lia].
  destruct p; reflexivity.
Qed.

Lemma mod_pow2_succ (M k : Z) :
  0 <= k ->
  M mod 2 ^ (k + 1) = M mod 2 ^ k + 2 ^ k * ((M / 2 ^ k) mod 2).
Proof.
  intros Hk. assert (P : 0 < 2 ^ k) by (apply Z.pow_pos_nonneg; lia).
  rewrite Z.pow_add_r, Z.pow_1_r by lia.
  apply Z.rem_mul_r; lia.
Qed.

Lemma odd_mod2 (x : Z) : x mod 2 = if Z.odd x then 1 else 0.
Proof. rewrite Zmod_odd. reflexivity. Qed.

Lemma shr_iter (M : Z) (k : nat) :
  0 <= M ->
  Nat.iter (S k) shr_1 {| shr_m := M; shr_r := false; shr_s := false |}
  = {| shr_m := M / 2 ^ (Z.of_nat k + 1);
       shr_r := Z.odd (M / 2 ^ Z.of_nat k);
       shr_s := negb (M mod 2 ^ Z.of_nat k =? 0) |}.
Proof.
  intros HM. induction k as [|k IH].
  - cbn [Nat.iter]. rewrite shr_1_nonneg by lia.
    cbn [Z.of_nat Z.add]. rewrite Z.pow_0_r, Z.pow_1_r, Z.div_1_r, Z.mod_1_r.
    reflexivity.
  - rewrite Nat.iter_succ, IH. clear IH.
    assert (P : 0 < 2 ^ (Z.of_nat k + 1)) by (apply Z.pow_pos_nonneg; lia).
    assert (Pk : 0 < 2 ^ Z.of_nat k) by (apply Z.pow_pos_nonneg; lia).
    rewrite shr_1_nonneg by (apply Z.div_pos; lia).
    replace (Z.of_nat (S k)) with (Z.of_nat k + 1) by lia.
    f_equal.
    + rewrite Z.div_div by lia. f_equal.
      rewrite (Z.pow_add_r 2 (Z.of_nat k + 1) 1) by lia. now rewrite Z.pow_1_r.
    + rewrite (mod_pow2_succ M (Z.of_nat k)) by lia.
      rewrite odd_mod2.
      pose proof (Z.mod_pos_bound M (2 ^ Z.of_nat k) Pk) as B.
      destruct (Z.odd (M / 2 ^ Z.of_nat k)); cbn [orb].
      * symmetry. apply negb_true_iff, Z.eqb_neq. lia.
      * rewrite Z.mul_0_r, Z.add_0_r. reflexivity.
Qed.

Lemma round_shr (M : Z) (k : nat) :
  0 <= M ->
  let mrs := Nat.iter (S k) shr_1
               {| shr_m := M; shr_r := false; shr_s := false |} in
  round_nearest_even (shr_m mrs) (loc_of_shr_record mrs)
  = rne M (Z.of_nat k + 1).
Proof.
  intros HM mrs. subst mrs. rewrite shr_iter by exact HM.
  cbn [shr_m]. unfold rne. cbv zeta.
  assert (Pk : 0 < 2 ^ Z.of_nat k) by (apply Z.pow_pos_nonneg; lia).
  rewrite (mod_pow2_succ M (Z.of_nat k)) by lia.
  rewrite odd_mod2.
  rewrite (Z.pow_add_r 2 (Z.of_nat k) 1), Z.pow_1_r by lia.
  pose proof (Z.mod_pos_bound M (2 ^ Z.of_nat k) Pk) as B.
  set (a := M mod 2 ^ Z.of_nat k) in *.
  set (h := 2 ^ Z.of_nat k) in *.
  destruct (Z.odd (M / h)).
  - destruct (Z.eqb_spec a 0) as [E|N]; cbn [negb loc_of_shr_record].
    + rewrite E. replace (2 * (0 + h * 1) ?= h * 2) with Eq
        by (symmetry; apply Z.compare_eq_iff; lia).
      reflexivity.
    + replace (2 * (a + h * 1) ?= h * 2) with Gt
        by (symmetry; apply Z.compare_gt_iff; lia).
      reflexivity.
  - replace (2 * (a + h * 0) ?= h * 2) with Lt
      by (symmetry; apply Z.compare_lt_iff; lia).
    destruct (negb (a =? 0)); reflexivity.
Qed.

Lemma shr_pos (M : Z) (e : Z) (p : positive) :
  0 <= M ->
  let '(mrs, e') := shr {| shr_m := M; shr_r := false; shr_s := false |}
                        e (Zpos p) in
  e' = e + Zpos p
  /\ round_nearest_even (shr_m mrs) (loc_of_shr_record mrs) = rne M (Zpos p).
Proof.
  intros HM. cbn [shr]. split; [reflexivity|].
  rewrite iter_pos_nat.
  destruct (Pos2Nat.is_succ p) as [k Hk]. rewrite Hk.
  rewrite (round_shr M k HM). f_equal. lia.
Qed.

Lemma full_bounds (m : positive) : full m -> 2 ^ 52 <= Zpos m < 2 ^ 53.
Proof.
  unfold full. intros H. pose proof (Z.log2_spec (Zpos m) ltac:(lia)) as B.
  rewrite H in B. exact B.
Qed.

Lemma full_of_bounds (z : Z) : 2 ^ 52 <= z < 2 ^ 53 -> Z.log2 z = 52.
Proof. intros H. apply Z.log2_unique; lia. Qed.

Lemma shr_fexp_exact (m e : Z) :
  0 < m -> - 1074 <= Z.log2 m - 52 + e ->
  shr_fexp F64.prec F64.emax m e loc_Exact
  = shr {| shr_m := m; shr_r := false; shr_s := false |} e (Z.log2 m - 52).
Proof.
  intros Hm He. unfold shr_fexp, fexp, emin, F64.prec, F64.emax.
  rewrite Zdigits2_log2 by exact Hm. cbn [shr_record_of_loc].
  f_equal. lia.
Qed.

Lemma round_aux_spec (s : bool) (m : positive) (e : Z) :
  52 <= Z.log2 (Zpos m) ->
  - 1074 <= Z.log2 (Zpos m) - 52 + e ->
  Z.log2 (Zpos m) + 1 + e <= 1023 ->
  exists m' e',
    binary_round_aux F64.prec F64.emax s (Zpos m) e loc_Exact = S754_finite s m' e'
    /\ full m' /\ e <= e' <= Z.log2 (Zpos m) - 51 + e
    /\ Zpos m' * 2 ^ (e' - e) = round53 (Zpos m).
Proof.
  intros Hl Hmin Hmax. set (l := Z.log2 (Zpos m)) in *.
  unfold binary_round_aux.
  rewrite shr_fexp_exact by (fold l; lia). fold l.
  destruct (Z.eq_dec l 52) as [E|N].
  - (* no bit to drop *)
    rewrite E. change (52 - 52) with 0.
    cbn [shr shr_m loc_of_shr_record round_nearest_even].
    rewrite shr_fexp_exact by (fold l; lia). fold l. rewrite E.
    change (52 - 52) with 0. cbn [shr shr_m].
    replace (e <=? F64.emax - F64.prec) with true
      by (symmetry; apply Z.leb_le; unfold F64.emax, F64.prec; lia).
    exists m, e. repeat split; try lia.
    + exact E.
    + rewrite Z.sub_diag, Z.pow_0_r, Z.mul_1_r.
      symmetry. apply round53_small. fold l. lia.
  - destruct (l - 52) as [|p|p] eqn:Hn; try lia.
    pose proof (shr_pos (Zpos m) e p ltac:(lia)) as S.
    destruct (shr _ e (Zpos p)) as [mrs' e'] eqn:Hs. destruct S as [He' Hr].
    rewrite Hr.
    pose proof (round53_bounds (Zpos m) ltac:(lia)) as B. fold l in B.
    assert (R : round53 (Zpos m) = rne (Zpos m) (Zpos p) * 2 ^ Zpos p).
    { unfold round53. cbv zeta. fold l. rewrite Hn. reflexivity. }
    assert (P : 0 < 2 ^ Zpos p) by (apply Z.pow_pos_nonneg; lia).
    assert (E1 : 2 ^ l = 2 ^ 52 * 2 ^ Zpos p)
      by (rewrite <- Z.pow_add_r by lia; f_equal; lia).
    assert (E2 : 2 ^ (l + 1) = 2 ^ 53 * 2 ^ Zpos p)
      by (rewrite <- Z.pow_add_r by lia; f_equal; lia).
    set (q := rne (Zpos m) (Zpos p)) in *.
    assert (Q : 2 ^ 52 <= q <= 2 ^ 53) by (rewrite R, E1, E2 in B; nia).
    destruct (Z.eq_dec q (2 ^ 53)) as [Eq|Nq].
    + (* the mantissa carried into bit 53 *)
      rewrite Eq in *.
      rewrite shr_fexp_exact by (rewrite ?Z.log2_pow2; lia).
      rewrite Z.log2_pow2 by lia.
      change (53 - 52) with 1. cbn [shr iter_pos].
      rewrite shr_1_nonneg by lia. cbn [shr_m].
      change (2 ^ 53 / 2) with (Zpos (2 ^ 52)).
      replace (e' + 1 <=? F64.emax - F64.prec) with true
        by (symmetry; apply Z.leb_le; unfold F64.emax, F64.prec; lia).
      exists (2 ^ 52)%positive, (e' + 1). repeat split; try lia.
      rewrite R. replace (e' + 1 - e) with (1 + Zpos p) by lia.
      rewrite Z.pow_add_r by lia.
      change (2 ^ 53) with (Zpos (2 ^ 52) * 2 ^ 1). ring.
    + assert (Lq : Z.log2 q = 52) by (apply full_of_bounds; lia).
      rewrite shr_fexp_exact by lia. rewrite Lq.
      change (52 - 52) with 0. cbn [shr shr_m].
      destruct q as [|mq|mq] eqn:Hq; try lia.
      replace (e' <=? F64.emax - F64.prec) with true
        by (symmetry; apply Z.leb_le; unfold F64.emax, F64.prec; lia).
      exists mq, e'. repeat split; try lia.
      * exact Lq.
      * rewrite R. f_equal. f_equal. lia.
Qed.

Lemma shl_align_spec (mx : positive) (ex ez : Z) :
  ez <= ex ->
  snd (shl_align mx ex ez) = ez
  /\ Zpos (fst (shl_align mx ex ez)) = Zpos mx * 2 ^ (ex - ez).
Proof.
  intros H. unfold shl_align. destruct (ez - ex) as [|d|d] eqn:E; try lia.
  - cbn [fst snd]. replace (ex - ez) with 0 by lia.
    rewrite Z.pow_0_r. lia.
  - cbn [fst snd]. split; [reflexivity|].
    change (Pos.iter xO mx d) with (shift_pos d mx).
    rewrite shift_pos_correct. change (Z.pow_pos 2 d) with (2 ^ Zpos d).
    replace (ex - ez) with (Zpos d) by lia. ring.
Qed.

Lemma shl_align_none (mx : positive) (ex ez : Z) :
  ex <= ez -> shl_align mx ex ez = (mx, ex).
Proof.
  intros H. unfold shl_align. destruct (ez - ex) as [|d|d] eqn:E;
    try reflexivity. lia.
Qed.

Lemma log2_mul_full (a b : Z) :
  2 ^ 52 <= a < 2 ^ 53 -> 2 ^ 52 <= b < 2 ^ 53 ->
  104 <= Z.log2 (a * b) <= 105.
Proof.
  intros A B. split.
  - apply Z.log2_le_pow2; [nia|]. change (2 ^ 104) with (2 ^ 52 * 2 ^ 52). nia.
  - assert (Z.log2 (a * b) < 106); [|lia].
    apply Z.log2_lt_pow2; [nia|]. change (2 ^ 106) with (2 ^ 53 * 2 ^ 53). nia.
Qed.

(** The product of two finite floats with full mantissas. *)
Lemma mul_spec (sx sy : bool) (mx my : positive) (ex ey : Z) :
  full mx -> full my -> - 1126 <= ex + ey <= 917 ->
  exists m e,
    SFmul F64.prec F64.emax (S754_finite sx mx ex) (S754_finite sy my ey)
    = S754_finite (xorb sx sy) m e
    /\ full m /\ ex + ey <= e <= ex + ey + 54
    /\ Zpos m * 2 ^ (e - (ex + ey)) = round53 (Zpos mx * Zpos my).
Proof.
  intros Fx Fy He. cbn [SFmul].
  pose proof (log2_mul_full _ _ (full_bounds _ Fx) (full_bounds _ Fy)) as L.
  rewrite <- Pos2Z.inj_mul in L.
  destruct (round_aux_spec (xorb sx sy) (mx * my) (ex + ey))
    as [m [e [H [F [B V]]]]]; try lia.
  exists m, e. rewrite Pos2Z.inj_mul in V. repeat split; auto; lia.
Qed.

(** [float(t)] for a positive int. *)
Lemma of_int_spec (t : positive) :
  Zpos t < 2 ^ 1023 ->
  exists m e,
    binary_normalize F64.prec F64.emax (Zpos t) 0 false = S754_finite false m e
    /\ full m /\ - 52 <= e <= 971
    /\ forall k, 52 <= k -> Zpos m * 2 ^ (e + k) = round53 (Zpos t * 2 ^ k).
Proof.
  intros Ht. cbn [binary_normalize]. unfold binary_round.
  assert (Hl : 0 <= Z.log2 (Zpos t) < 1023).
  { split; [apply Z.log2_nonneg|]. apply Z.log2_lt_pow2; lia. }
  set (l := Z.log2 (Zpos t)) in *.
  assert (Hf : fexp F64.prec F64.emax (Zpos (digits2_pos t) + 0) = l - 52).
  { change (Zpos (digits2_pos t)) with (Zdigits2 (Zpos t)).
    rewrite Zdigits2_log2 by lia. fold l. unfold fexp, emin, F64.prec, F64.emax. lia. }
  rewrite Hf.
  destruct (Z_le_gt_dec 52 l) as [G|S].
  - (* at least 53 bits: nothing to align *)
    rewrite shl_align_none by lia.
    destruct (round_aux_spec false t 0) as [m [e [H [F [B V]]]]];
      fold l; try lia.
    exists m, e. fold l in B. repeat split; auto; try lia.
    intros k Hk. rewrite round53_shift by lia. rewrite <- V.
    rewrite Z.sub_0_r, <- Z.mul_assoc, <- Z.pow_add_r by lia. reflexivity.
  - (* fewer: the mantissa is padded, and kept *)
    destruct (shl_align_spec t 0 (l - 52)) as [Se Sm]; [lia|].
    destruct (shl_align t 0 (l - 52)) as [mz ez]. cbn [fst snd] in Se, Sm.
    subst ez. replace (0 - (l - 52)) with (52 - l) in Sm by lia.
    assert (Lz : Z.log2 (Zpos mz) = 52).
    { rewrite Sm, Z.log2_mul_pow2 by lia. fold l. lia. }
    destruct (round_aux_spec false mz (l - 52)) as [m [e [H [F [B V]]]]];
      try lia.
    exists m, e. rewrite Lz in B. repeat split; auto; try lia.
    intros k Hk. rewrite round53_small in V by lia.
    rewrite round53_shift, (round53_small (Zpos t)) by (fold l; lia).
    replace (e + k) with ((e - (l - 52)) + (l - 52 + k)) by lia.
    rewrite Z.pow_add_r, Z.mul_assoc, V, Sm by lia.
    rewrite <- Z.mul_assoc, <- Z.pow_add_r by lia. f_equal. f_equal. lia.
Qed.

(** The sum of two negative finite floats with full mantissas. *)
Lemma add_spec (mx my : positive) (ex ey : Z) :
  full mx -> full my -> - 1074 <= ex <= 966 -> - 1074 <= ey <= 966 ->
  exists m e,
    SFadd F64.prec F64.emax (S754_finite true mx ex) (S754_finite true my ey)
    = S754_finite true m e
    /\ full m /\ Z.min ex ey <= e <= 969
    /\ forall k, 0 <= ex + k -> 0 <= ey + k ->
         Zpos m * 2 ^ (e + k)
         = round53 (Zpos mx * 2 ^ (ex + k) + Zpos my * 2 ^ (ey + k)).
Proof.
  intros Fx Fy Hx Hy. cbn [SFadd cond_Zopp].
  set (ez := Z.min ex ey).
  destruct (shl_align_spec mx ex ez) as [_ Sx]; [subst ez; lia|].
  destruct (shl_align_spec my ey ez) as [_ Sy]; [subst ez; lia|].
  set (a := fst (shl_align mx ex ez)) in *.
  set (b := fst (shl_align my ey ez)) in *.
  change (- Zpos a + - Zpos b) with (Zneg (a + b)).
  cbn [binary_normalize]. unfold binary_round.
  pose proof (full_bounds _ Fx) as Bx. pose proof (full_bounds _ Fy) as By.
  assert (Px : 1 <= 2 ^ (ex - ez)) by (apply Z.pow_le_mono_r with (b := 0); subst ez; lia).
  assert (Py : 1 <= 2 ^ (ey - ez)) by (apply Z.pow_le_mono_r with (b := 0); subst ez; lia).
  assert (Lab : 53 <= Z.log2 (Zpos (a + b)) <= 54 + Z.max ex ey - ez).
  { rewrite Pos2Z.inj_add, Sx, Sy. split.
    - apply Z.log2_le_pow2; [nia|]. change (2 ^ 53) with (2 ^ 52 + 2 ^ 52). nia.
    - assert (Z.log2 (Zpos mx * 2 ^ (ex - ez) + Zpos my * 2 ^ (ey - ez))
              < 55 + Z.max ex ey - ez); [|lia].
      apply Z.log2_lt_pow2; [nia|].
      replace (55 + Z.max ex ey - ez) with (54 + (1 + (Z.max ex ey - ez)))
        by lia.
      rewrite (Z.pow_add_r 2 54) by (subst ez; lia).
      rewrite (Z.pow_add_r 2 1), Z.pow_1_r by (subst ez; lia).
      assert (2 ^ (ex - ez) <= 2 ^ (Z.max ex ey - ez))
        by (apply Z.pow_le_mono_r; subst ez; lia).
      assert (2 ^ (ey - ez) <= 2 ^ (Z.max ex ey - ez))
        by (apply Z.pow_le_mono_r; subst ez; lia).
      change (2 ^ 54) with (2 ^ 53 + 2 ^ 53). nia. }
  set (l := Z.log2 (Zpos (a + b))) in *.
  assert (Hf : fexp F64.prec F64.emax (Zpos (digits2_pos (a + b)) + ez) = l - 52 + ez).
  { change (Zpos (digits2_pos (a + b))) with (Zdigits2 (Zpos (a + b))).
    rewrite Zdigits2_log2 by lia. fold l. unfold fexp, emin, F64.prec, F64.emax.
    subst ez. lia. }
  rewrite Hf, shl_align_none by lia.
  destruct (round_aux_spec true (a + b) ez) as [m [e [H [F [B V]]]]];
    fold l; try (subst ez; lia).
  exists m, e. fold l in B. repeat split; auto; try (subst ez; lia).
  intros k Kx Ky.
  replace (e + k) with ((e - ez) + (ez + k)) by lia.
  rewrite Z.pow_add_r, Z.mul_assoc, V by (subst ez; lia).
  rewrite <- round53_shift by (subst ez; lia).
  f_equal. rewrite Pos2Z.inj_add, Sx, Sy, Z.mul_add_distr_r.
  rewrite <- !Z.mul_assoc, <- !Z.pow_add_r by (subst ez; lia).
  f_equal; f_equal; f_equal; lia.
Qed.

End Rounding.

(** * The order of rewards *)
Section RewardOrder.

Lemma mag_pos (k : Z) (s : bool) (m : positive) (e : Z) :
  0 <= e + k -> 0 < mag k (S754_finite s m e).
Proof.
  intros H. cbn [mag].
  assert (0 < 2 ^ (e + k)) by (apply Z.pow_pos_nonneg; lia). nia.
Qed.

Lemma full_exponent_lt (k : Z) (m1 m2 : positive) (e1 e2 : Z) :
  full m1 -> full m2 -> 0 <= e1 + k -> e1 < e2 ->
  Zpos m1 * 2 ^ (e1 + k) < Zpos m2 * 2 ^ (e2 + k).
Proof.
  intros F1 F2 H0 H.
  pose proof (full_bounds _ F1) as B1. pose proof (full_bounds _ F2) as B2.
  assert (P : 0 < 2 ^ (e1 + k)) by (apply Z.pow_pos_nonneg; lia).
  assert (L : 2 ^ (e1 + k + 1) <= 2 ^ (e2 + k))
    by (apply Z.pow_le_mono_r; lia).
  rewrite Z.pow_add_r, Z.pow_1_r in L by lia.
  change (2 ^ 53) with (2 ^ 52 * 2) in B1. nia.
Qed.

(** On these floats, [<=] is the reverse order of magnitudes. *)
Lemma leb_nonpos (lo hi k : Z) (x y : float) :
  nonpos lo hi x -> nonpos lo hi y -> 0 <= lo + k ->
  F64.leb x y = (mag k y <=? mag k x).
Proof.
  intros Hx Hy Hk. unfold F64.leb, SFleb.
  destruct x as [sx|sx| |sx mx ex], y as [sy|sy| |sy my ey];
    try contradiction; cbn [nonpos] in Hx, Hy.
  - reflexivity.
  - destruct Hy as [-> [Fy Ey]]. cbn [SFcompare].
    pose proof (mag_pos k true my ey ltac:(lia)).
    symmetry. apply Z.leb_gt. cbn [mag] in *. lia.
  - destruct Hx as [-> [Fx Ex]]. cbn [SFcompare].
    pose proof (mag_pos k true mx ex ltac:(lia)).
    symmetry. apply Z.leb_le. cbn [mag] in *. lia.
  - destruct Hx as [-> [Fx Ex]], Hy as [-> [Fy Ey]]. cbn [SFcompare mag].
    destruct (Z.compare_spec ex ey) as [E|L|G].
    + subst ey. assert (P : 0 < 2 ^ (ex + k)) by (apply Z.pow_pos_nonneg; lia).
      change (Pos.compare_cont Eq mx my) with (Pos.compare mx my).
      destruct (Pos.compare_spec mx my) as [E|L|G]; cbn [CompOpp];
        symmetry; [apply Z.leb_le|apply Z.leb_gt|apply Z.leb_le];
        try (subst; lia); nia.
    + pose proof (full_exponent_lt k mx my ex ey Fx Fy ltac:(lia) L).
      symmetry. apply Z.leb_gt. lia.
    + pose proof (full_exponent_lt k my mx ey ex Fy Fx ltac:(lia) ltac:(lia)).
      symmetry. apply Z.leb_le. lia.
Qed.

Lemma eqb_zero_nonpos (lo hi k : Z) (x : float) :
  nonpos lo hi x -> 0 <= lo + k ->
  F64.eqb x F64.zero = (mag k x =? 0).
Proof.
  intros Hx Hk. destruct x as [sx|sx| |sx mx ex]; try contradiction.
  - reflexivity.
  - destruct Hx as [-> [Fx Ex]].
    pose proof (mag_pos k true mx ex ltac:(lia)).
    symmetry. apply Z.eqb_neq. lia.
Qed.

(** One term of the reward: a constant [-c] times [float(n)]. *)
Lemma term_spec (mc : positive) (ec n : Z) :
  full mc -> - 64 <= ec <= - 59 -> 0 <= n < 2 ^ 1023 ->
  let f := F64.mul (F64.opp (S754_finite false mc ec)) (F64.of_int n) in
  nonpos (- 128) 966 f
  /\ mag 128 f = round53 (Zpos mc * 2 ^ (ec + 64) * round53 (n * 2 ^ 64)).
Proof.
  intros Fc Ec Hn f. subst f. unfold F64.mul, F64.opp, F64.of_int.
  cbn [SFopp negb].
  destruct n as [|t|t]; [| |lia].
  - cbn. split; [exact I|]. now rewrite Z.mul_0_r.
  - destruct (of_int_spec t ltac:(lia)) as [m [e [H [F [B V]]]]].
    rewrite H.
    destruct (mul_spec true false mc m ec e Fc F ltac:(lia))
      as [m' [e' [H' [F' [B' V']]]]].
    rewrite H'. cbn [xorb nonpos mag]. split; [repeat split; auto; lia|].
    rewrite <- (V 64) by lia.
    replace (e' + 128) with ((e' - (ec + e)) + ((ec + 64) + (e + 64))) by lia.
    rewrite Z.pow_add_r, Z.mul_assoc, V' by lia.
    rewrite <- round53_shift by lia. f_equal.
    rewrite Z.pow_add_r by lia. ring.
Qed.

Lemma round53_full (m : positive) (k : Z) :
  full m -> 0 <= k -> round53 (Zpos m * 2 ^ k) = Zpos m * 2 ^ k.
Proof.
  intros F Hk. rewrite round53_shift by lia.
  now rewrite round53_small by (rewrite F; lia).
Qed.

(** The sum of two such terms. *)
Lemma sum_spec (x y : float) :
  nonpos (- 128) 966 x -> nonpos (- 128) 966 y ->
  nonpos (- 128) 969 (F64.add x y)
  /\ mag 128 (F64.add x y) = round53 (mag 128 x + mag 128 y).
Proof.
  intros Hx Hy. unfold F64.add.
  destruct x as [sx|sx| |sx mx ex], y as [sy|sy| |sy my ey];
    try contradiction; cbn [nonpos] in Hx, Hy.
  - destruct sx, sy; cbn; split; auto.
  - destruct Hy as [-> [Fy Ey]]. cbn [SFadd nonpos mag].
    split; [repeat split; auto; lia|].
    rewrite Z.add_0_l. symmetry. apply round53_full; [exact Fy|lia].
  - destruct Hx as [-> [Fx Ex]]. cbn [SFadd nonpos mag].
    split; [repeat split; auto; lia|].
    rewrite Z.add_0_r. symmetry. apply round53_full; [exact Fx|lia].
  - destruct Hx as [-> [Fx Ex]], Hy as [-> [Fy Ey]].
    destruct (add_spec mx my ex ey Fx Fy ltac:(lia) ltac:(lia))
      as [m [e [H [F [B V]]]]].
    rewrite H. cbn [nonpos mag]. split; [repeat split; auto; lia|].
    apply V; lia.
Qed.

Lemma c_0_001_full : F64.c_0_001 = S754_finite false 0x10624dd2f1a9fc (- 62)
                     /\ full 0x10624dd2f1a9fc.
Proof. split; reflexivity. Qed.

Lemma c_0_01_full : F64.c_0_01 = S754_finite false 0x147ae147ae147b (- 59)
                    /\ full 0x147ae147ae147b.
Proof. split; reflexivity. Qed.

(** The reward is a non-positive float of magnitude [reward_mag]. *)
Lemma compute_reward_mag (obs : observation) :
  0 <= n_tris obs < 2 ^ 1023 -> 0 <= n_objs obs < 2 ^ 1023 ->
  nonpos (- 128) 969 (_compute_reward obs)
  /\ mag 128 (_compute_reward obs)
     = reward_mag (n_tris obs) (Z.max 0 (n_objs obs - 6)).
Proof.
  intros Ht Ho. unfold _compute_reward.
  destruct c_0_001_full as [-> F1]. destruct c_0_01_full as [-> F2].
  destruct (term_spec _ (- 62) (n_tris obs) F1 ltac:(lia) Ht) as [N1 M1].
  destruct (term_spec _ (- 59) (Z.max 0 (n_objs obs - 6)) F2
                      ltac:(lia) ltac:(lia)) as [N2 M2].
  cbv zeta in N1, M1, N2, M2.
  destruct (sum_spec _ _ N1 N2) as [N M]. split; [exact N|].
  rewrite M, M1, M2. reflexivity.
Qed.

Lemma reward_mag_mono (t t' j j' : Z) :
  0 <= t <= t' -> 0 <= j <= j' -> reward_mag t j <= reward_mag t' j'.
Proof.
  intros Ht Hj. unfold reward_mag. cbv zeta.
  assert (P : 0 < 2 ^ 64) by reflexivity.
  assert (A : forall c a b, 0 < c -> 0 <= a <= b ->
                0 <= round53 (c * round53 (a * 2 ^ 64))
                <= round53 (c * round53 (b * 2 ^ 64))).
  { intros c a b Hc Hab.
    pose proof (round53_nonneg (a * 2 ^ 64) ltac:(nia)).
    pose proof (round53_mono (a * 2 ^ 64) (b * 2 ^ 64) ltac:(nia) ltac:(nia)).
    split; [apply round53_nonneg; nia|apply round53_mono; nia]. }
  pose proof (A (0x10624dd2f1a9fc * 2 ^ 2) t t' ltac:(reflexivity) Ht).
  pose proof (A (0x147ae147ae147b * 2 ^ 5) j j' ltac:(reflexivity) Hj).
  apply round53_mono; lia.
Qed.

Lemma reward_mag_zero (t j : Z) :
  0 <= t -> 0 <= j -> (reward_mag t j = 0 <-> t = 0 /\ j = 0).
Proof.
  intros Ht Hj. split.
  - intros H. unfold reward_mag in H. cbv zeta in H.
    assert (A : forall c a, 0 < c -> 0 <= a ->
                  0 <= round53 (c * round53 (a * 2 ^ 64))
                  /\ (0 < a -> 0 < round53 (c * round53 (a * 2 ^ 64)))).
    { intros c a Hc Ha.
      pose proof (round53_nonneg (a * 2 ^ 64) ltac:(nia)).
      split; [apply round53_nonneg; nia|].
      intros Pa. pose proof (round53_pos (a * 2 ^ 64) ltac:(nia)).
      apply round53_pos. nia. }
    destruct (A (0x10624dd2f1a9fc * 2 ^ 2) t ltac:(reflexivity) Ht) as [N1 P1].
    destruct (A (0x147ae147ae147b * 2 ^ 5) j ltac:(reflexivity) Hj) as [N2 P2].
    destruct (Z.eq_dec t 0) as [Et|Nt]; destruct (Z.eq_dec j 0) as [Ej|Nj];
      try (split; assumption); exfalso;
      [specialize (P2 ltac:(lia))|specialize (P1 ltac:(lia))
       |specialize (P1 ltac:(lia))];
      match type of H with
      | round53 ?s = 0 => pose proof (round53_pos s ltac:(lia))
      end; lia.
  - intros [-> ->]. reflexivity.
Qed.

(** C10: for counts that are not negative (and that [float] can convert),
    the reward is at most 0; it equals 0 exactly when there is no triangle
    and there are at most six objects; and it does not increase when
    [n_tris] or [n_objs] does. *)
Theorem reward_never_positive_and_monotone (obs obs' : observation) :
  0 <= n_tris obs < 2 ^ 1023 -> 0 <= n_objs obs < 2 ^ 1023 ->
  0 <= n_tris obs' < 2 ^ 1023 -> 0 <= n_objs obs' < 2 ^ 1023 ->
  F64.leb (_compute_reward obs) F64.zero = true
  /\ (F64.eqb (_compute_reward obs) F64.zero = true
      <-> n_tris obs = 0 /\ n_objs obs <= 6)
  /\ (n_tris obs <= n_tris obs' -> n_objs obs <= n_objs obs' ->
      F64.leb (_compute_reward obs') (_compute_reward obs) = true).
Proof.
  intros Ht Ho Ht' Ho'.
  destruct (compute_reward_mag obs Ht Ho) as [N M].
  destruct (compute_reward_mag obs' Ht' Ho') as [N' M'].
  split; [|split].
  - rewrite (leb_nonpos (- 128) 969 128 _ F64.zero N I) by lia.
    apply Z.leb_le. cbn [mag F64.zero]. rewrite M.
    pose proof (reward_mag_mono 0 (n_tris obs) 0 (Z.max 0 (n_objs obs - 6))
                  ltac:(lia) ltac:(lia)) as H.
    exact H.
  - rewrite (eqb_zero_nonpos (- 128) 969 128 _ N) by lia.
    rewrite Z.eqb_eq, M, reward_mag_zero by lia. lia.
  - intros Lt Lo.
    rewrite (leb_nonpos (- 128) 969 128 _ _ N' N) by lia.
    apply Z.leb_le. rewrite M, M'. apply reward_mag_mono; lia.
Qed.

End RewardOrder.

(** * The claims on the small runtime *)
Section Runs.

Import Toy.
Abbreviation R := Toy.runtime.


Lemma other_action_is_noop_run :
  (99 <> 0 /\ 99 <> 1 /\ 99 <> 2 /\ 99 <> 3)
  /\ step_count (fst (@step R 99 (w0 scene1))) = 1
  /\ bpy_scene (fst (@step R 99 (w0 scene1))) = scene1.
Proof.
  split; [repeat split; discriminate|].
  destruct (@other_action_is_noop R 99 (w0 scene1))
    as [_ [_ [Hs [Hc _]]]]; try discriminate.
  split; [exact Hc|exact Hs].
Defined.


Lemma reset_is_idempotent_run :
  (forall s s' : @scene R,
      @read_factory_settings R s = @read_factory_settings R s')
  /\ snd (@reset R (steps_between [0; 3; 1] (fst (@reset R (w0 scene1)))))
     = snd (@reset R (w0 scene1)).
Proof.
  split; [reflexivity|].
  destruct (@reset_is_idempotent R (fun _ _ => eq_refl) (w0 scene1)
                                 [0; 3; 1]) as [[obs [H1 H2]] _].
  rewrite H1. exact H2.
Defined.

Lemma ping_changes_nothing_run :
  dict_get [("cmd", JStr "ping")] "cmd" = Some (JStr "ping")
  /\ replies (trace (fst (@handle_line R ping (w0 scene1))))
     = [JDict [("pong", JBool true)]]
  /\ bpy_scene (fst (@handle_line R ping (w0 scene1))) = scene1.
Proof.
  split; [reflexivity|].
  destruct (@ping_changes_nothing R [("cmd", JStr "ping")] (w0 scene1)
                                  eq_refl) as [_ [T [_ [_ [S _]]]]].
  split; [|exact S].
  unfold ping. rewrite T. reflexivity.
Defined.

Lemma served_ping (w : @world R) :
  served [ping] w (emit (Sent (JDict [("pong", JBool true)])) w).
Proof.
  eapply served_cons; [|apply served_nil]. reflexivity.
Defined.

Lemma invalid_json_ends_only_the_session_run :
  replies (trace (fst (@accept_loop R [[Valid ping; Invalid "{"; Valid ping];
                                       [Valid ping]] (w0 scene1))))
  = [JDict [("pong", JBool true)]; JDict [("pong", JBool true)]].
Proof.
  pose proof (@invalid_json_ends_only_the_session R [ping] "{" [Valid ping]
                [[Valid ping]] (w0 scene1) _
                (served_ping _)) as [_ [_ [_ [_ H]]]].
  cbv zeta in H. cbn [map app] in H. rewrite H. reflexivity.
Defined.

Lemma step_action_is_coerced_with_int_run :
  @py_int R (JStr "abc") = Raised (ValueError "")
  /\ @handle_line R bad_step (emits [Accepted; PrintConnected] (w0 scene1))
     = (emits [Accepted; PrintConnected] (w0 scene1),
        Raised (ValueError "")).
Proof.
  destruct (@step_action_is_coerced_with_int R []
              [("cmd", JStr "step"); ("action", JStr "abc")] [] []
              (w0 scene1) _ (served_nil _) eq_refl)
    as [_ [_ [_ [_ [H [_ A]]]]]].
  split; [exact (A eq_refl)|].
  exact (proj1 (H _ (A eq_refl))).
Defined.


Lemma reward_never_positive_and_monotone_run :
  (0 <= 1000 < 2 ^ 1023 /\ 0 <= 10 < 2 ^ 1023)
  /\ (0 <= 1001 < 2 ^ 1023 /\ 0 <= 12 < 2 ^ 1023)
  /\ F64.leb (_compute_reward (counts 1001 12))
              (_compute_reward (counts 1000 10)) = true
  /\ F64.leb (_compute_reward (counts 1000 10)) F64.zero = true.
Proof.
  assert (B : forall n, In n [1000; 1001; 10; 12] -> 0 <= n < 2 ^ 1023).
  { intros n H. cbn in H.
    repeat (destruct H as [<-|H]; [split; [discriminate|reflexivity]|]).
    contradiction. }
  pose proof (reward_never_positive_and_monotone
                (counts 1000 10) (counts 1001 12)
                (B 1000 (or_introl eq_refl))
                (B 10 (or_intror (or_intror (or_introl eq_refl))))
                (B 1001 (or_intror (or_introl eq_refl)))
                (B 12 (or_intror (or_intror (or_intror (or_introl eq_refl))))))
    as [H0 [_ Hm]].
  split; [split; apply B; cbn; auto|].
  split; [split; apply B; cbn; auto 6|].
  split; [apply Hm; cbn; discriminate|exact H0].
Defined.


End Runs.

(** * Further properties of the environment *)
Section EnvProperties.

Context {R : Runtime}.

Lemma py_sum_of_nat (l : list nat) (acc : Z) :
  fold_left Z.add (map Z.of_nat l) acc = acc + Z.of_nat (list_sum l).
Proof.
  revert acc. induction l as [|n l IH]; intros acc; simpl.
  - lia.
  - rewrite IH. lia.
Qed.

(** X1: a scene that holds no mesh object (nothing at all, or only cameras,
    lights and the like) is observed as zero objects, zero triangles, a
    zero corner and fifteen zeros. *)
Theorem obs_of_scene_without_meshes (s : scene) :
  mesh_objects s = [] ->
  get_obs s = {| n_objs := 0; n_tris := 0;
                 bbox0 := [F64.zero; F64.zero; F64.zero];
                 dims := repeat F64.zero 15 |}.
Proof.
  intros H. unfold get_obs. rewrite H. cbn [List.length Z.of_nat firstn
                                             collect_dims].
  rewrite pad_to_spec. reflexivity.
Qed.

(** X2: an observation counts the mesh objects and nothing else: [n_objs]
    is their number, [n_tris] the sum of their polygon counts; neither is
    negative, [n_objs] is at most the number of objects in the scene, and
    without mesh objects there are no triangles. *)
Theorem obs_counts_mesh_objects (s : scene) :
  let objs := mesh_objects s in
  n_objs (get_obs s) = Z.of_nat (List.length objs)
  /\ n_tris (get_obs s) = Z.of_nat (list_sum (map (polygons_len s) objs))
  /\ (forall o, In o objs <-> In o (data_objects s) /\ obj_type s o = "MESH")
  /\ 0 <= n_objs (get_obs s) <= Z.of_nat (List.length (data_objects s))
  /\ 0 <= n_tris (get_obs s)
  /\ (n_objs (get_obs s) = 0 -> n_tris (get_obs s) = 0).
Proof.
  intros objs.
  assert (T : n_tris (get_obs s)
              = Z.of_nat (list_sum (map (polygons_len s) objs))).
  { unfold get_obs; cbn [n_tris]. fold objs.
    destruct objs as [|o objs'] eqn:E; [reflexivity|].
    unfold py_sum. rewrite <- (map_map (polygons_len s) Z.of_nat).
    rewrite py_sum_of_nat. lia. }
  assert (N : n_objs (get_obs s) = Z.of_nat (List.length objs)) by reflexivity.
  split; [exact N|]. split; [exact T|]. split; [|split; [|split]].
  - intros o. subst objs. unfold mesh_objects. rewrite filter_In.
    now rewrite String.eqb_eq.
  - rewrite N. split; [lia|]. apply inj_le. subst objs. unfold mesh_objects.
    apply filter_length_le.
  - rewrite T. lia.
  - rewrite N, T. intros H. destruct objs; [reflexivity|discriminate].
Qed.

(** X3: [reset] always returns, with [step_count] at 0 and the files and
    the configuration as they were.  Without a usable asset (no path, an
    empty path, or no such file) the scene is the factory scene and nothing
    is printed; with one, the scene is what the import left, and an import
    that raised is printed, not propagated. *)
Theorem reset_never_raises (w : world) :
  exists w' obs,
    reset w = (w', Returned obs)
    /\ obs = get_obs (bpy_scene w')
    /\ step_count w' = 0
    /\ disk w' = disk w /\ usd_path w' = usd_path w
    /\ max_steps w' = max_steps w
    /\ match usd_path w with
       | Some p =>
           if negb (String.eqb p "") && path_exists p (disk w) then
             let '(s', r) := usd_import p (disk w)
                               (read_factory_settings (bpy_scene w)) in
             bpy_scene w' = s'
             /\ trace w' = trace w ++ match r with
                                      | Some e => [PrintImportError e]
                                      | None => []
                                      end
           else bpy_scene w' = read_factory_settings (bpy_scene w)
                /\ trace w' = trace w
       | None => bpy_scene w' = read_factory_settings (bpy_scene w)
                 /\ trace w' = trace w
       end.
Proof.
  exists (set_step_count 0 (baseline w)), (get_obs (bpy_scene (baseline w))).
  destruct (baseline_keeps_config w) as [U [D [X _]]].
  split; [apply reset_unfold|]. repeat (split; [auto; fail|]).
  cbn [bpy_scene trace set_step_count]. unfold baseline.
  destruct (usd_path w) as [p|]; [|now split].
  destruct (negb (String.eqb p "") && path_exists p (disk w)); [|now split].
  cbn [bpy_scene set_scene].
  destruct (usd_import p (disk w) (read_factory_settings (bpy_scene w)))
    as [s' [e|]]; cbn; split; auto. now rewrite app_nil_r.
Qed.

(** X4: [step] touches the scene and [step_count] and nothing else: the
    configuration, the files and the trace are as before.  When it returns,
    [step_count] has gone up by exactly one; when it raises, [step_count] is
    unchanged, and the action was 0. *)
Theorem step_touches_scene_and_counter_only (action : Z) (w : world) :
  let w' := fst (step action w) in
  usd_path w' = usd_path w /\ max_steps w' = max_steps w
  /\ disk w' = disk w /\ trace w' = trace w
  /\ match snd (step action w) with
     | Returned (obs, reward, done, info) =>
         step_count w' = step_count w + 1
         /\ obs = get_obs (bpy_scene w')
         /\ reward = _compute_reward obs
         /\ done = (step_count w' >=? max_steps w')
         /\ info = JDict []
     | Raised _ => step_count w' = step_count w /\ action = 0
     end.
Proof.
  destruct (step_spec action w) as [s' [[E _]|[e [E A]]]]; rewrite E;
    cbn; repeat split; auto.
Qed.

(** X5: whatever the engine does (any of its operations may raise on any
    object), a [step] with an action other than 0 returns; with action 0 it
    returns provided no object refuses to become active. *)
Theorem step_survives_engine_failures (action : Z) (w : world) :
  action <> 0 \/ (forall o s, snd (set_active o s) = None) ->
  exists s',
    step action w
    = (set_step_count (step_count w + 1) (set_scene s' w),
       Returned (get_obs s', _compute_reward (get_obs s'),
                 step_count w + 1 >=? max_steps w, JDict [])).
Proof.
  intros H. destruct (step_spec action w) as [s' [[E _]|[e [E A]]]].
  - now exists s'.
  - exfalso. rewrite step_unfold in E.
    assert (Rt : returns (dispatch action (mesh_objects (bpy_scene w)))).
    { destruct H as [N|Hact]; [now apply dispatch_returns|].
      subst action. now apply dispatch_returns_active. }
    destruct (Rt w) as [u Hu].
    destruct (dispatch action (mesh_objects (bpy_scene w)) w) as [w1 [x|x]];
      [discriminate E|discriminate Hu].
Qed.

(** X6: action 0 makes each mesh object active outside its [try]: when the
    first mesh object refuses, [step] raises that exception at once; no
    object is decimated, [step_count] is not incremented and no observation
    is built. *)
Theorem decimate_step_raises_on_inactive_object
        (w : world) (o : object) (rest : list object) (s' : scene) (e : exn) :
  mesh_objects (bpy_scene w) = o :: rest ->
  set_active o (bpy_scene w) = (s', Some e) ->
  step 0 w = (set_scene s' w, Raised e)
  /\ step_count (fst (step 0 w)) = step_count w.
Proof.
  intros Ho Ha.
  assert (E : step 0 w = (set_scene s' w, Raised e)).
  { rewrite step_unfold, Ho. unfold dispatch. cbn [Z.eqb for_each].
    unfold bind at 1. unfold bind at 1. unfold bpy_op at 1. rewrite Ha.
    reflexivity. }
  split; [exact E|now rewrite E].
Qed.

Lemma add_neg_zero (x : float) : F64.add x F64.neg_zero = x.
Proof. destruct x as [[|]|[|]| |s m e]; reflexivity. Qed.

(** X7: up to six objects cost nothing: for [n_objs <= 6] the reward is
    the single rounded product [-0.001 * n_tris], whatever [n_objs] is. *)
Theorem reward_ignores_up_to_six_objects (obs : observation) :
  n_objs obs <= 6 ->
  _compute_reward obs
  = F64.mul (F64.opp F64.c_0_001) (F64.of_int (n_tris obs)).
Proof.
  intros H. unfold _compute_reward.
  replace (Z.max 0 (n_objs obs - 6)) with 0 by lia.
  change (F64.mul (F64.opp F64.c_0_01) (F64.of_int 0)) with F64.neg_zero.
  apply add_neg_zero.
Qed.

End EnvProperties.

(** * Further properties of the protocol *)
Section CommandProperties.

Context {R : Runtime}.

(** X8: [save] never raises and never ends the session.  A missing or
    falsy path ([null], "", 0, [], ...) is answered with "no path" and
    nothing is exported; otherwise the scene is exported to the path, and
    the reply says whether the export succeeded or carries its error text.
    The scene and [step_count] are never touched. *)
Theorem save_reports_its_outcome (d : list (string * json)) (w : world) :
  dict_get d "cmd" = Some (JStr "save") ->
  let path := field d "path" JNull in
  let w' := fst (handle_line (JDict d) w) in
  snd (handle_line (JDict d) w) = Returned Continue
  /\ bpy_scene w' = bpy_scene w /\ step_count w' = step_count w
  /\ if truthy path then
       let '(d', r) := usd_export path (bpy_scene w) (disk w) in
       disk w' = d'
       /\ trace w'
          = trace w
            ++ [Sent (match r with
                      | None => JDict [("saved", JBool true); ("path", path)]
                      | Some e => JDict [("saved", JBool false);
                                         ("error", JStr (str_exn e))]
                      end)]
     else
       disk w' = disk w
       /\ trace w'
          = trace w ++ [Sent (JDict [("saved", JBool false);
                                     ("error", JStr "no path")])].
Proof.
  intros H path w'. subst w'. rewrite handle_line_dict. unfold field in *.
  rewrite H. cbv zeta. cbn [is_str String.eqb Ascii.eqb Bool.eqb].
  fold path. destruct (truthy path).
  - unfold bind, try_except, export, send, emit_, modify, ret.
    destruct (usd_export path (bpy_scene w) (disk w)) as [d' [e|]];
      cbn; repeat split.
  - cbn. repeat split.
Qed.

(** X9: [close] is answered with [{"closed": true}] and ends the session:
    whatever lines follow on the connection are never handled.  The
    environment, the scene and the files are as before. *)
Theorem close_ends_the_session (d : list (string * json)) (rest : list line)
        (w : world) :
  dict_get d "cmd" = Some (JStr "close") ->
  handle_line (JDict d) w
  = (emit (Sent (JDict [("closed", JBool true)])) w, Returned Break)
  /\ handle_client (Valid (JDict d) :: rest) w
     = (emits [Sent (JDict [("closed", JBool true)]); PrintDisconnected] w,
        Returned tt)
  /\ handle_client (Valid (JDict d) :: rest) w
     = handle_client [Valid (JDict d)] w.
Proof.
  intros H.
  assert (E : handle_line (JDict d) w
              = (emit (Sent (JDict [("closed", JBool true)])) w,
                 Returned Break)).
  { rewrite handle_line_dict. unfold field. rewrite H. reflexivity. }
  split; [exact E|].
  cbn [handle_client]. rewrite !(bind_returned _ _ _ _ _ E).
  split; reflexivity.
Qed.

Lemma is_str_false (v : json) (s : string) :
  v <> JStr s -> is_str v s = false.
Proof.
  intros H. destruct v; try reflexivity. cbn [is_str].
  apply String.eqb_neq. congruence.
Qed.

(** X10: a request whose [cmd] is none of the five command names (a
    different string, a value that is not a string, or no [cmd] at all) is
    answered with [{"error": "unknown_cmd"}]; the session goes on and
    nothing else changes. *)
Theorem unknown_command_is_reported (d : list (string * json)) (w : world) :
  (forall name, In name ["reset"; "step"; "ping"; "save"; "close"] ->
                field d "cmd" JNull <> JStr name) ->
  handle_line (JDict d) w
  = (emit (Sent (JDict [("error", JStr "unknown_cmd")])) w, Returned Continue).
Proof.
  intros H. rewrite handle_line_dict. cbv zeta.
  rewrite !is_str_false by (apply H; cbn; auto 6).
  reflexivity.
Qed.

(** X11: a [step] request without an [action] field runs action 0, and an
    [action] of [true] or [false] runs action 1 or 0: two [step] requests
    whose action values [int] converts alike are handled alike. *)
Theorem step_action_defaults_to_zero (d d' : list (string * json))
        (w : world) :
  dict_get d "cmd" = Some (JStr "step") ->
  dict_get d' "cmd" = Some (JStr "step") ->
  (dict_get d "action" = None ->
   py_int (field d "action" (JInt 0)) = Returned 0)
  /\ (forall b, dict_get d "action" = Some (JBool b) ->
                py_int (field d "action" (JInt 0))
                = Returned (if b then 1 else 0))
  /\ (py_int (field d "action" (JInt 0)) = py_int (field d' "action" (JInt 0))
      -> handle_line (JDict d) w = handle_line (JDict d') w).
Proof.
  intros H H'. split; [|split].
  - intros A. unfold field. now rewrite A.
  - intros b A. unfold field. now rewrite A.
  - intros E. rewrite !handle_line_dict. unfold field in *.
    rewrite H, H'. cbv zeta. cbn [is_str String.eqb Ascii.eqb Bool.eqb].
    now rewrite E.
Qed.

Lemma handle_line_frame (data : json) (w : world) :
  let w' := fst (handle_line data w) in
  usd_path w' = usd_path w /\ max_steps w' = max_steps w
  /\ match data with
     | JDict d =>
         let cmd := field d "cmd" JNull in
         (is_str cmd "save" = false -> disk w' = disk w)
         /\ (is_str cmd "reset" = false -> is_str cmd "step" = false ->
             bpy_scene w' = bpy_scene w /\ step_count w' = step_count w)
     | _ => w' = w
     end.
Proof.
  intros w'. subst w'.
  destruct data as [ | b | n | f | s | l | d ];
    try (repeat split; reflexivity).
  rewrite handle_line_dict. cbv zeta.
  destruct (is_str (field d "cmd" JNull) "reset") eqn:Creset.
  { rewrite (bind_returned _ _ _ _ _ (reset_unfold w)).
    destruct (baseline_keeps_config w) as [U [D [X _]]]. cbn.
    repeat split; auto; discriminate. }
  destruct (is_str (field d "cmd" JNull) "step") eqn:Cstep.
  { destruct (py_int (field d "action" (JInt 0))) as [n|e].
    - rewrite bind_lift_returned.
      destruct (step_spec n w) as [s' [[E _]|[e [E A]]]].
      + rewrite (bind_returned _ _ _ _ _ E). cbn.
        repeat split; auto; discriminate.
      + rewrite (bind_raised _ _ _ _ _ E). cbn.
        repeat split; auto; discriminate.
    - rewrite bind_lift_raised. cbn. repeat split; auto; discriminate. }
  destruct (is_str (field d "cmd" JNull) "ping").
  { cbn. repeat split; auto. }
  destruct (is_str (field d "cmd" JNull) "save").
  { destruct (truthy (field d "path" JNull)).
    - unfold bind, try_except, export, send, emit_, modify, ret.
      destruct (usd_export (field d "path" JNull) (bpy_scene w) (disk w))
        as [d' [e|]]; cbn; repeat split; auto; discriminate.
    - cbn. repeat split; auto; discriminate. }
  destruct (is_str (field d "cmd" JNull) "close"); cbn; repeat split; auto.
Qed.

(** X15: which command can touch what.  Only [save] changes the files;
    only [reset] and [step] change the scene or [step_count]; no request
    changes the asset path or [max_steps]; and a line that is not an object
    changes nothing at all. *)
Theorem commands_touch_only_their_state (data : json) (w : world) :
  let w' := fst (handle_line data w) in
  usd_path w' = usd_path w /\ max_steps w' = max_steps w
  /\ match data with
     | JDict d =>
         let cmd := field d "cmd" JNull in
         (is_str cmd "save" = false -> disk w' = disk w)
         /\ (is_str cmd "reset" = false -> is_str cmd "step" = false ->
             bpy_scene w' = bpy_scene w /\ step_count w' = step_count w)
     | _ => w' = w
     end.
Proof. exact (handle_line_frame data w). Qed.

End CommandProperties.

(** * Further properties of the server as a whole *)

(** A relation between the states before and after a computation that
    holds of each primitive holds of the handler built from them. *)
Section Preservation.

Context {R : Runtime}.
Variable I : world -> world -> Prop.
Hypothesis I_refl : forall w, I w w.
Hypothesis I_trans : forall a b c, I a b -> I b c -> I a c.

Definition preserves {A} (c : M A) : Prop := forall w, I w (fst (c w)).

Lemma preserves_ret {A} (a : A) : preserves (ret a).
Proof. intros w. apply I_refl. Qed.

Lemma preserves_lift {A} (r : result A) : preserves (lift r).
Proof. intros w. apply I_refl. Qed.

Lemma preserves_bind {A B} (c : M A) (k : A -> M B) :
  preserves c -> (forall a, preserves (k a)) -> preserves (bind c k).
Proof.
  intros Hc Hk w. unfold bind. specialize (Hc w).
  destruct (c w) as [w1 [a|e]]; cbn [fst] in *; [|exact Hc].
  eapply I_trans; [exact Hc|apply Hk].
Qed.

Lemma preserves_try_except {A} (c : M A) (h : exn -> M A) :
  preserves c -> (forall e, preserves (h e)) -> preserves (try_except c h).
Proof.
  intros Hc Hh w. unfold try_except. specialize (Hc w).
  destruct (c w) as [w1 [a|e]]; cbn [fst] in *; [exact Hc|].
  eapply I_trans; [exact Hc|apply Hh].
Qed.

Lemma preserves_try_finally {A} (c : M A) (f : M unit) :
  preserves c -> preserves f -> preserves (try_finally c f).
Proof.
  intros Hc Hf w. unfold try_finally. specialize (Hc w).
  destruct (c w) as [w1 r]. specialize (Hf w1).
  destruct (f w1) as [w2 [u|e]]; cbn [fst] in *; eapply I_trans; eauto.
Qed.

Hypothesis I_reset : preserves reset.
Hypothesis I_step : forall action, preserves (step action).
Hypothesis I_export : forall path, preserves (export path).
Hypothesis I_emit : forall e, session_event e = true -> preserves (emit_ e).

Lemma preserves_send (v : json) : preserves (send v).
Proof. apply I_emit. reflexivity. Qed.

Lemma preserves_handle_line (data : json) : preserves (handle_line data).
Proof.
  unfold handle_line.
  apply preserves_bind; [apply preserves_lift|]. intros cmd.
  repeat match goal with
         | |- preserves (if ?b then _ else _) => destruct b
         | |- preserves (bind _ _) => apply preserves_bind
         | |- preserves (try_except _ _) => apply preserves_try_except
         | |- preserves (lift _) => apply preserves_lift
         | |- preserves (ret _) => apply preserves_ret
         | |- preserves (send _) => apply preserves_send
         | |- preserves (export _) => apply I_export
         | |- preserves reset => apply I_reset
         | |- preserves (step _) => apply I_step
         | |- forall _, _ => intro
         | |- preserves (match ?x with _ => _ end) => destruct x
         end.
Qed.

Lemma preserves_handle_client (lines : list line) :
  preserves (handle_client lines).
Proof.
  induction lines as [|[raw|data] lines IH]; cbn [handle_client].
  - now apply I_emit.
  - apply preserves_bind; [now apply I_emit|]. intros _. now apply I_emit.
  - apply preserves_bind; [apply preserves_handle_line|].
    intros [|]; [exact IH|now apply I_emit].
Qed.

End Preservation.

Section ServerProperties.

Context {R : Runtime}.

(* the trace grew by what a handler prints or writes, and nothing else *)
Definition quiet (w w' : world) : Prop :=
  exists log, trace w' = trace w ++ log /\ forallb session_event log = true.

(* the configuration is kept and [step_count] stays a natural number *)
Definition config_kept (w w' : world) : Prop :=
  usd_path w' = usd_path w /\ max_steps w' = max_steps w
  /\ (0 <= step_count w -> 0 <= step_count w').

Lemma quiet_refl (w : world) : quiet w w.
Proof. exists []. now rewrite app_nil_r. Qed.

Lemma quiet_trans (a b c : world) : quiet a b -> quiet b c -> quiet a c.
Proof.
  intros [l1 [T1 F1]] [l2 [T2 F2]]. exists (l1 ++ l2).
  rewrite T2, T1, app_assoc, forallb_app, F1, F2. now split.
Qed.

Lemma quiet_reset : preserves quiet reset.
Proof.
  intros w. rewrite reset_unfold. cbn [fst]. unfold quiet.
  cbn [trace set_step_count]. unfold baseline.
  assert (N : forall t : list event,
             exists log, t = t ++ log /\ forallb session_event log = true)
    by (intros t; exists []; now rewrite app_nil_r).
  destruct (usd_path w) as [p|]; [|apply N].
  destruct (negb (String.eqb p "") && path_exists p (disk w)); [|apply N].
  destruct (usd_import _ _ _) as [s' [e|]]; [|apply N].
  exists [PrintImportError e]. now split.
Qed.

Lemma quiet_step (action : Z) : preserves quiet (step action).
Proof.
  intros w. destruct (step_keeps_config action w) as [_ [_ [T _]]].
  exists []. now rewrite T, app_nil_r.
Qed.

Lemma quiet_export (path : json) : preserves quiet (export path).
Proof.
  intros w. unfold export. destruct (usd_export _ _ _) as [d' r].
  exists []. cbn. now rewrite app_nil_r.
Qed.

Lemma quiet_emit (e : event) :
  session_event e = true -> preserves quiet (emit_ e).
Proof. intros H w. exists [e]. cbn. now rewrite H. Qed.

Lemma handle_client_quiet (lines : list line) (w : world) :
  quiet w (fst (handle_client lines w)).
Proof.
  apply (preserves_handle_client quiet quiet_refl quiet_trans quiet_reset
           quiet_step quiet_export quiet_emit).
Qed.

Lemma session_trace (conn : list line) (w : world) :
  exists log,
    trace (session conn w) = trace w ++ Accepted :: log ++ [SocketClosed]
    /\ forallb session_event log = true.
Proof.
  unfold session. cbv zeta.
  destruct (handle_client_quiet conn (emits [Accepted; PrintConnected] w))
    as [log [T F]].
  destruct (handle_client conn (emits [Accepted; PrintConnected] w))
    as [w1 [u|e]]; cbn [fst] in T.
  - exists (PrintConnected :: log). cbn [trace emit forallb session_event].
    rewrite T. cbn [emits fold_left trace emit]. rewrite F.
    split; [|reflexivity].
    repeat rewrite <- app_assoc; cbn [app];
      repeat rewrite <- app_assoc; reflexivity.
  - exists (PrintConnected :: log ++ [PrintTraceback e]).
    cbn [emits fold_left trace emit] in *. rewrite T.
    cbn [forallb session_event]. rewrite forallb_app, F.
    split; [|reflexivity].
    repeat rewrite <- app_assoc; cbn [app];
      repeat rewrite <- app_assoc; reflexivity.
Qed.

Lemma accept_loop_returns (conns : list (list line)) :
  forall w, exists w' t,
    accept_loop conns w = (w', Returned tt)
    /\ trace w' = trace w ++ t
    /\ served_trace t (List.length conns).
Proof.
  induction conns as [|conn conns IH]; intros w.
  - exists w, []. cbn. rewrite app_nil_r. repeat split. constructor.
  - rewrite accept_loop_cons.
    destruct (IH (session conn w)) as [w' [t [E [T S]]]].
    destruct (session_trace conn w) as [log [Ts F]].
    exists w', (Accepted :: log ++ SocketClosed :: t).
    split; [exact E|]. split.
    + rewrite T, Ts.
      repeat rewrite <- app_assoc; cbn [app];
        repeat rewrite <- app_assoc; reflexivity.
    + cbn [List.length]. now constructor.
Qed.

(** X12: the listener cannot be brought down from a connection: for any
    connections and any lines on them, [start] neither raises nor stops
    early, and its trace is one block per connection, in order: the accept,
    then only what the handler prints and writes, then the close of that
    socket, before the next accept. *)
Theorem listener_serves_every_connection (conns : list (list line))
        (w : world) :
  exists w' t,
    start conns w = (w', Returned tt)
    /\ trace w' = trace w ++ Listening :: t
    /\ served_trace t (List.length conns).
Proof.
  destruct (accept_loop_returns conns (emit Listening w)) as [w' [t [E [T S]]]].
  exists w', t. split; [exact E|]. split; [|exact S].
  rewrite T. cbn [trace emit]. now rewrite <- app_assoc.
Qed.

Lemma handle_line_replies (data : json) (w : world) :
  exists rs,
    replies (trace (fst (handle_line data w))) = replies (trace w) ++ rs
    /\ match snd (handle_line data w) with
       | Returned _ => List.length rs = 1%nat
       | Raised _ => rs = []
       end.
Proof.
  destruct (handle_line_outcome data w)
    as [[w2 [c [reply [log [E [T [L _]]]]]]]|[w2 [e [E [T _]]]]]; rewrite E;
    cbn [fst snd].
  - exists [reply]. rewrite T, !replies_app, L. cbn. now split.
  - exists []. rewrite T, app_nil_r. now split.
Qed.

Lemma served_replies (pre : list json) (w w1 : world) :
  served pre w w1 ->
  exists rs, replies (trace w1) = replies (trace w) ++ rs
             /\ List.length rs = List.length pre.
Proof.
  induction 1 as [w|data rest w w1 w2 H S IH].
  - exists []. now rewrite app_nil_r.
  - destruct (handle_line_replies data w) as [r1 [T1 L1]].
    rewrite H in T1, L1. cbn [fst snd] in T1, L1.
    destruct IH as [r2 [T2 L2]]. exists (r1 ++ r2).
    rewrite T2, T1, app_assoc, length_app, L1, L2. now split.
Qed.

(** X13: the protocol is strictly request and response: a handler never
    writes more replies than it has read lines, at most one per line, and
    exactly one for each request of a session in which every request was
    answered without ending it. *)
Theorem at_most_one_reply_per_line (lines : list line) (w : world) :
  (exists rs,
      replies (trace (fst (handle_client lines w))) = replies (trace w) ++ rs
      /\ (List.length rs <= List.length lines)%nat)
  /\ (forall pre w1,
         lines = map Valid pre -> served pre w w1 ->
         exists rs,
           replies (trace (fst (handle_client lines w)))
           = replies (trace w) ++ rs
           /\ List.length rs = List.length lines).
Proof.
  split.
  - revert w. induction lines as [|[raw|data] lines IH]; intros w;
      cbn [handle_client].
    + exists []. cbn. rewrite replies_app, app_nil_r. cbn.
      now rewrite app_nil_r.
    + exists []. cbn. rewrite !replies_app. cbn. rewrite !app_nil_r.
      split; [reflexivity|lia].
    + destruct (handle_line_replies data w) as [r1 [T1 L1]].
      unfold bind at 1.
      destruct (handle_line data w) as [w1 [[|]|e]]; cbn [fst snd] in *.
      * destruct (IH w1) as [r2 [T2 L2]]. exists (r1 ++ r2).
        rewrite T2, T1, app_assoc, length_app, L1. cbn [List.length].
        split; [reflexivity|lia].
      * exists r1. cbn. rewrite replies_app, T1. cbn. rewrite app_nil_r.
        cbn [List.length]. split; [reflexivity|lia].
      * subst r1. exists []. rewrite T1. cbn [List.length].
        split; [reflexivity|lia].
  - intros pre w1 -> S.
    pose proof (handle_client_served pre [] w w1 S) as H.
    rewrite app_nil_r in H. rewrite H. cbn [handle_client].
    destruct (served_replies pre w w1 S) as [rs [T L]].
    exists rs. cbn. rewrite replies_app, T. cbn. rewrite app_nil_r.
    now rewrite length_map.
Qed.

Lemma config_kept_refl (w : world) : config_kept w w.
Proof. repeat split; auto. Qed.

Lemma config_kept_trans (a b c : world) :
  config_kept a b -> config_kept b c -> config_kept a c.
Proof.
  intros [U1 [X1 C1]] [U2 [X2 C2]]. repeat split; try congruence. auto.
Qed.

Lemma config_kept_reset : preserves config_kept reset.
Proof.
  intros w. rewrite reset_unfold. cbn [fst].
  destruct (baseline_keeps_config w) as [U [_ [X _]]].
  unfold config_kept.
  cbn [usd_path max_steps step_count set_step_count].
  repeat split; auto; lia.
Qed.

Lemma config_kept_step (action : Z) : preserves config_kept (step action).
Proof.
  intros w. destruct (step_spec action w) as [s' [[E _]|[e [E _]]]];
    rewrite E; unfold config_kept;
    cbn [fst usd_path max_steps step_count set_step_count set_scene];
    repeat split; auto; lia.
Qed.

Lemma config_kept_export (path : json) : preserves config_kept (export path).
Proof.
  intros w. unfold export. destruct (usd_export _ _ _) as [d' r].
  repeat split; auto.
Qed.

Lemma config_kept_emits (es : list event) (w : world) :
  config_kept w (emits es w).
Proof.
  destruct (emits_trace es w) as [_ [U [C [X _]]]].
  repeat split; auto. now rewrite C.
Qed.

Lemma session_config_kept (conn : list line) (w : world) :
  config_kept w (session conn w).
Proof.
  unfold session. cbv zeta.
  pose proof (preserves_handle_client config_kept config_kept_refl
                config_kept_trans config_kept_reset config_kept_step
                config_kept_export
                (fun e _ w => config_kept_emits [e] w) conn
                (emits [Accepted; PrintConnected] w)) as H.
  pose proof (config_kept_emits [Accepted; PrintConnected] w) as H0.
  destruct (handle_client conn (emits [Accepted; PrintConnected] w))
    as [w1 [u|e]]; cbn [fst] in H.
  - eapply config_kept_trans; [exact H0|].
    eapply config_kept_trans; [exact H|]. apply (config_kept_emits [_]).
  - eapply config_kept_trans; [exact H0|].
    eapply config_kept_trans; [exact H|]. apply config_kept_emits.
Qed.

Lemma accept_loop_config_kept (conns : list (list line)) :
  forall w, config_kept w (fst (accept_loop conns w)).
Proof.
  induction conns as [|conn conns IH]; intros w.
  - apply config_kept_refl.
  - rewrite accept_loop_cons. eapply config_kept_trans; [|apply IH].
    apply session_config_kept.
Qed.

(** X14: a worker run by [main] keeps its configuration whatever clients
    send: the asset path is the one given on the command line (none when
    it is empty), [max_steps] is 50 and [step_count] is never negative; and
    [main] returns only because the connections ended, never by an
    exception from a client. *)
Theorem main_keeps_its_configuration (a : args) (s : scene) (d : files)
        (conns : list (list line)) :
  let w' := fst (main a s d conns) in
  snd (main a s d conns) = Returned tt
  /\ usd_path w' = (if String.eqb (usd a) "" then None else Some (usd a))
  /\ max_steps w' = 50
  /\ 0 <= step_count w'.
Proof.
  unfold main. cbv zeta.
  set (w := init (if String.eqb (usd a) "" then None else Some (usd a)) s d).
  destruct (accept_loop_returns conns (emit Listening w)) as [w' [t [E _]]].
  pose proof (accept_loop_config_kept conns (emit Listening w))
    as [U [X C]].
  change (start conns w) with (accept_loop conns (emit Listening w)).
  rewrite E in *. cbn [fst snd] in *.
  repeat split; [exact U|exact X|apply C; cbn; lia].
Qed.

Lemma handle_client_idle (lines : list line) :
  forall w,
    forallb idle_line lines = true ->
    let w' := fst (handle_client lines w) in
    bpy_scene w' = bpy_scene w /\ step_count w' = step_count w
    /\ disk w' = disk w.
Proof.
  induction lines as [|[raw|data] lines IH]; intros w H; cbn [handle_client].
  - repeat split.
  - repeat split.
  - cbn [forallb] in H. apply andb_prop in H. destruct H as [Hd Hl].
    assert (F : bpy_scene (fst (handle_line data w)) = bpy_scene w
                /\ step_count (fst (handle_line data w)) = step_count w
                /\ disk (fst (handle_line data w)) = disk w).
    { pose proof (handle_line_frame data w) as [_ [_ F]].
      destruct data as [ | b | n | f | s | l | d ];
        try (rewrite F; repeat split).
      cbn [idle_line] in Hd. cbv zeta in F, Hd.
      apply andb_prop in Hd. destruct Hd as [Hd Hs].
      apply andb_prop in Hd. destruct Hd as [Hr Ht].
      apply negb_true_iff in Hr, Ht, Hs.
      destruct F as [Fd Fs]. destruct (Fs Hr Ht) as [S C].
      repeat split; auto. }
    destruct F as [S [C D]]. unfold bind.
    destruct (handle_line data w) as [w1 [[|]|e]]; cbn [fst] in *.
    + destruct (IH w1 Hl) as [S' [C' D']]. cbv zeta.
      repeat split; congruence.
    + cbn. repeat split; assumption.
    + repeat split; assumption.
Qed.

(** X17: the environment outlives its connections: a client that only
    connects and disconnects, pings, closes, or sends lines the handler
    cannot process leaves the scene, [step_count] and the files exactly as
    the previous client left them; nothing is reset on accept or on close. *)
Theorem idle_session_keeps_the_environment (conn : list line) (w : world) :
  forallb idle_line conn = true ->
  bpy_scene (session conn w) = bpy_scene w
  /\ step_count (session conn w) = step_count w
  /\ disk (session conn w) = disk w
  /\ forall conns, accept_loop (conn :: conns) w
                   = accept_loop conns (session conn w).
Proof.
  intros H. unfold session. cbv zeta.
  destruct (handle_client_idle conn (emits [Accepted; PrintConnected] w) H)
    as [S [C D]].
  destruct (emits_trace [Accepted; PrintConnected] w)
    as [_ [_ [C0 [_ [S0 D0]]]]].
  assert (E : forall conns, accept_loop (conn :: conns) w
                            = accept_loop conns (session conn w))
    by (intros conns; apply accept_loop_cons).
  unfold session in E. cbv zeta in E.
  destruct (handle_client conn (emits [Accepted; PrintConnected] w))
    as [w1 [u|e]]; cbn [fst] in *.
  - cbn [bpy_scene step_count disk emit].
    repeat split; first [congruence|exact E].
  - destruct (emits_trace [PrintTraceback e; SocketClosed] w1)
      as [_ [_ [C1 [_ [S1 D1]]]]].
    repeat split; first [congruence|exact E].
Qed.

End ServerProperties.

(** * The command line *)
Section StartUp.

Lemma py_in_spec (x : string) (l : list string) :
  py_in x l = true <-> In x l.
Proof.
  unfold py_in. rewrite existsb_exists. split.
  - intros [y [Hy E]]. apply String.eqb_eq in E. now subst.
  - intros H. exists x. split; [exact H|apply String.eqb_refl].
Qed.

Lemma py_index_first (x : string) (pre post : list string) :
  ~ In x pre -> py_index x (pre ++ x :: post) = Some (List.length pre).
Proof.
  induction pre as [|y pre IH]; intros H; cbn [app py_index List.length].
  - now rewrite String.eqb_refl.
  - destruct (String.eqb_spec y x) as [E|N].
    + exfalso. apply H. now left.
    + rewrite IH by (intros I; apply H; now right). reflexivity.
Qed.

Lemma first_occurrence (x : string) (l : list string) :
  In x l -> exists pre post, l = pre ++ x :: post /\ ~ In x pre.
Proof.
  induction l as [|y l IH]; intros H; [contradiction|].
  destruct (String.eqb_spec y x) as [E|N].
  - subst y. exists [], l. split; [reflexivity|intros []].
  - destruct H as [H|H]; [contradiction|].
    destruct (IH H) as [pre [post [E P]]]. exists (y :: pre), post.
    split; [now rewrite E|]. intros [I|I]; [contradiction|auto].
Qed.

(** X16: the worker parses only what follows the first "--" on the
    command line: Blender's own arguments before it never reach the parser
    (later "--" are passed on as they are), and without any "--" the parser
    gets nothing, so every option keeps its default.  The slicing itself
    never raises. *)
Theorem worker_argv_is_what_follows_the_dashes :
  (forall pre post,
      ~ In "--" pre -> worker_argv (pre ++ "--" :: post) = Returned post)
  /\ (forall argv, ~ In "--" argv -> worker_argv argv = Returned [])
  /\ (forall argv, exists rest,
         worker_argv argv = Returned rest
         /\ exists skipped, argv = skipped ++ rest).
Proof.
  assert (A : forall pre post,
             ~ In "--" pre ->
             worker_argv (pre ++ "--" :: post) = Returned post).
  { intros pre post H. unfold worker_argv.
    replace (py_in "--" (pre ++ "--" :: post)) with true
      by (symmetry; apply py_in_spec, in_elt).
    rewrite py_index_first by exact H. f_equal.
    replace (pre ++ "--" :: post) with ((pre ++ ["--"]) ++ post)
      by (now rewrite <- app_assoc).
    replace (List.length pre + 1)%nat with (List.length (pre ++ ["--"]))
      by (now rewrite length_app).
    rewrite skipn_app, skipn_all, Nat.sub_diag. reflexivity. }
  assert (B : forall argv, ~ In "--" argv -> worker_argv argv = Returned []).
  { intros argv H. unfold worker_argv.
    destruct (py_in "--" argv) eqn:E; [|reflexivity].
    apply py_in_spec in E. contradiction. }
  split; [exact A|]. split; [exact B|].
  intros argv. destruct (in_dec string_dec "--" argv) as [I|N].
  - destruct (first_occurrence _ _ I) as [pre [post [-> P]]].
    exists post. split; [now apply A|].
    exists (pre ++ ["--"]). now rewrite <- app_assoc.
  - exists []. split; [now apply B|]. exists argv. now rewrite app_nil_r.
Qed.

End StartUp.

(** * The further properties on the small runtime *)
Section MoreRuns.

Import Toy.
Abbreviation R' := Toy.runtime.

Lemma obs_of_scene_without_meshes_run :
  @mesh_objects R' [camera; camera] = []
  /\ n_objs (@get_obs R' [camera; camera]) = 0
  /\ dims (@get_obs R' [camera; camera]) = repeat F64.zero 15.
Proof.
  split; [reflexivity|].
  rewrite (@obs_of_scene_without_meshes R' [camera; camera] eq_refl).
  split; reflexivity.
Defined.

Lemma step_survives_engine_failures_run :
  3 <> 0 /\ step_count (fst (@step R' 3 (w0 scene1))) = 1.
Proof.
  split; [discriminate|].
  destruct (@step_survives_engine_failures R' 3 (w0 scene1))
    as [s' E]; [left; discriminate|].
  rewrite E. reflexivity.
Defined.

Lemma decimate_step_raises_on_inactive_object_run :
  @mesh_objects R' [cube 6 false] = [0%nat]
  /\ @step R' 0 (w0 [cube 6 false])
     = (w0 [cube 6 false],
        Raised (Exn "RuntimeError" "object not in view layer")).
Proof.
  split; [reflexivity|].
  exact (proj1 (@decimate_step_raises_on_inactive_object R'
                  (w0 [cube 6 false]) 0%nat [] [cube 6 false]
                  (Exn "RuntimeError" "object not in view layer")
                  eq_refl eq_refl)).
Defined.

Lemma reward_ignores_up_to_six_objects_run :
  (3 <= 6 /\ 0 <= 6)
  /\ _compute_reward (counts 1000 3) = _compute_reward (counts 1000 0).
Proof.
  assert (A : 3 <= 6) by discriminate.
  assert (B : 0 <= 6) by discriminate.
  split; [now split|].
  rewrite (reward_ignores_up_to_six_objects (counts 1000 3) A).
  rewrite (reward_ignores_up_to_six_objects (counts 1000 0) B).
  reflexivity.
Defined.

Lemma save_reports_its_outcome_run :
  dict_get [("cmd", JStr "save")] "cmd" = Some (JStr "save")
  /\ snd (@handle_line R' (JDict [("cmd", JStr "save")]) (w0 scene1))
     = Returned Continue
  /\ bpy_scene (fst (@handle_line R' (JDict [("cmd", JStr "save")])
                                  (w0 scene1))) = scene1.
Proof.
  split; [reflexivity|].
  destruct (@save_reports_its_outcome R' [("cmd", JStr "save")] (w0 scene1)
                                      eq_refl) as [C [S _]].
  split; [exact C|exact S].
Defined.

Lemma close_ends_the_session_run :
  dict_get [("cmd", JStr "close")] "cmd" = Some (JStr "close")
  /\ @handle_client R' [Valid (JDict [("cmd", JStr "close")]); Valid ping]
                    (w0 scene1)
     = @handle_client R' [Valid (JDict [("cmd", JStr "close")])] (w0 scene1).
Proof.
  split; [reflexivity|].
  exact (proj2 (proj2 (@close_ends_the_session R' [("cmd", JStr "close")]
                         [Valid ping] (w0 scene1) eq_refl))).
Defined.

Lemma unknown_command_is_reported_run :
  replies (trace (fst (@handle_line R' (JDict [("cmd", JInt 3)]) (w0 scene1))))
  = [JDict [("error", JStr "unknown_cmd")]].
Proof.
  rewrite (@unknown_command_is_reported R' [("cmd", JInt 3)] (w0 scene1)).
  - reflexivity.
  - intros name _. discriminate.
Defined.

Lemma step_action_defaults_to_zero_run :
  @handle_line R' (JDict [("cmd", JStr "step")]) (w0 scene1)
  = @handle_line R' (JDict [("cmd", JStr "step"); ("action", JBool false)])
                 (w0 scene1).
Proof.
  destruct (@step_action_defaults_to_zero R' [("cmd", JStr "step")]
              [("cmd", JStr "step"); ("action", JBool false)] (w0 scene1)
              eq_refl eq_refl) as [_ [_ H]].
  apply H. reflexivity.
Defined.

Lemma idle_session_keeps_the_environment_run :
  forallb idle_line [Valid ping; Invalid "{"; Valid ping] = true
  /\ bpy_scene (@session R' [Valid ping; Invalid "{"; Valid ping]
                         (w0 scene1)) = scene1.
Proof.
  split; [reflexivity|].
  exact (proj1 (@idle_session_keeps_the_environment R'
                  [Valid ping; Invalid "{"; Valid ping] (w0 scene1) eq_refl)).
Defined.

End MoreRuns.
